(** * server-fetch: a guarded [fetch] for server-side use

    Shallow embedding of [src/index.ts] and of the collaborators it calls
    (the [ip-address] classes [Address4] and [Address6], [dns.lookup],
    [URL], [psl.isValid], [fetch], [setTimeout]/[clearTimeout] and
    [AbortController]), followed by the properties of the validation
    pipeline and of the guarded entry point. *)

From Stdlib Require Import ZArith String Ascii List Bool Lia.
From stdpp Require Import base option list strings gmap.

Local Open Scope string_scope.
Local Open Scope Z_scope.

#[local] Arguments String.append !s1 s2 : simpl nomatch.

(** ** JavaScript strings *)

Module Str.

Definition code (c : ascii) : Z := Z.of_N (N_of_ascii c).

Definition is_digit (c : ascii) : bool := (48 <=? code c) && (code c <=? 57).

Definition is_hex (c : ascii) : bool :=
  is_digit c
  || ((97 <=? code c) && (code c <=? 102))
  || ((65 <=? code c) && (code c <=? 70)).

Definition digit_val (c : ascii) : option Z :=
  if is_digit c then Some (code c - 48) else None.

Definition hex_val (c : ascii) : option Z :=
  if is_digit c then Some (code c - 48)
  else if (97 <=? code c) && (code c <=? 102) then Some (code c - 87)
  else if (65 <=? code c) && (code c <=? 70) then Some (code c - 55)
  else None.

(** [s.includes(c)] for a one-character needle. *)
Fixpoint includes (c : ascii) (s : string) : bool :=
  match s with
  | EmptyString => false
  | String x r => Ascii.eqb x c || includes c r
  end.

(** Every character of [s] satisfies [p] (a character class with [*]). *)
Fixpoint all_chars (p : ascii -> bool) (s : string) : bool :=
  match s with
  | EmptyString => true
  | String x r => p x && all_chars p r
  end.

Definition cons_head (c : ascii) (l : list string) : list string :=
  match l with
  | h :: t => String c h :: t
  | [] => [String c EmptyString]
  end.

(** [s.split(sep)] for a one-character separator: never empty,
    [''.split(':')] is [['']]. *)
Fixpoint split (sep : ascii) (s : string) : list string :=
  match s with
  | EmptyString => [EmptyString]
  | String c r =>
      if Ascii.eqb c sep then EmptyString :: split sep r
      else cons_head c (split sep r)
  end.

(** [s.split('::')]: left to right, matches do not overlap. *)
Fixpoint split_dcolon (s : string) : list string :=
  match s with
  | EmptyString => [EmptyString]
  | String c r =>
      match r with
      | String c' r' =>
          if Ascii.eqb c ":" && Ascii.eqb c' ":"
          then EmptyString :: split_dcolon r'
          else cons_head c (split_dcolon r)
      | EmptyString => [String c EmptyString]
      end
  end.

(** [l.join(sep)]. *)
Fixpoint join (sep : string) (l : list string) : string :=
  match l with
  | [] => EmptyString
  | x :: r =>
      match r with
      | [] => x
      | _ :: _ => x +:+ sep +:+ join sep r
      end
  end.

(** The text before the first [c], and the rest from [c] on. *)
Fixpoint cut_at (c : ascii) (s : string) : string * string :=
  match s with
  | EmptyString => (EmptyString, EmptyString)
  | String x r =>
      if Ascii.eqb x c then (EmptyString, s)
      else let '(a, b) := cut_at c r in (String x a, b)
  end.

(** The texts before and after the last [c], when there is one. *)
Fixpoint cut_last (c : ascii) (s : string) : option (string * string) :=
  match s with
  | EmptyString => None
  | String x r =>
      match cut_last c r with
      | Some (a, b) => Some (String x a, b)
      | None => if Ascii.eqb x c then Some (EmptyString, r) else None
      end
  end.

(** [s.slice(0, -1)]. *)
Fixpoint drop_last (s : string) : string :=
  match s with
  | EmptyString => EmptyString
  | String c r =>
      match r with
      | EmptyString => EmptyString
      | String _ _ => String c (drop_last r)
      end
  end.

(** The digits read by [parseInt(s, radix)]: the value of the longest
    prefix of digits, [None] (NaN) when there is none.  Leading white space
    and signs are not modelled: the program only passes [URL.port] (empty
    or decimal digits) and address groups that were matched against the
    library's regular expressions. *)
Fixpoint digits_prefix (val : ascii -> option Z) (radix : Z) (s : string)
    (acc : option Z) : option Z :=
  match s with
  | EmptyString => acc
  | String c r =>
      match val c with
      | Some d =>
          digits_prefix val radix r
            (Some (match acc with Some a => a * radix + d | None => d end))
      | None => acc
      end
  end.

Definition parseInt10 (s : string) : option Z := digits_prefix digit_val 10 s None.
Definition parseInt16 (s : string) : option Z := digits_prefix hex_val 16 s None.

Definition digit_char (d : Z) : ascii :=
  if d <? 10 then ascii_of_N (Z.to_N (48 + d)) else ascii_of_N (Z.to_N (87 + d)).

Fixpoint to_radix (fuel : nat) (radix n : Z) (acc : string) : string :=
  match fuel with
  | O => acc
  | S f =>
      let acc' := String (digit_char (n mod radix)) acc in
      if n / radix =? 0 then acc' else to_radix f radix (n / radix) acc'
  end.

(** [n.toString(radix)] for a non-negative integer (lower-case digits). *)
Definition toString (radix n : Z) : string :=
  to_radix (S (Z.to_nat (Z.log2 n))) radix n EmptyString.

Definition dec (n : Z) : string := toString 10 n.
Definition hex (n : Z) : string := toString 16 n.

End Str.

(** ** Exceptions

    A JavaScript exception is recorded by its class and message. *)

Inductive exn : Type :=
  | TypeError (msg : string)     (* thrown by [new URL] *)
  | Error (msg : string)         (* [new Error(msg)], the program's own *)
  | AddressError (msg : string)  (* thrown by the [ip-address] constructors *)
  | DNSError (code : string)     (* rejection of [dns.lookup] *)
  | AbortError                   (* rejection of an aborted [fetch] *)
  | FetchError (msg : string).   (* any other rejection of [fetch] *)

(** Synchronous code that may throw. *)
Inductive result (A : Type) : Type :=
  | Ok (a : A)
  | Throw (e : exn).
Arguments Ok {A} a.
Arguments Throw {A} e.

#[export] Instance result_ret : MRet result := fun A a => Ok a.
#[export] Instance result_bind : MBind result := fun A B f m =>
  match m with
  | Ok a => f a
  | Throw e => Throw e
  end.

(** [try { m } catch { h }]. *)
Definition try_catch {A} (m : result A) (h : exn -> result A) : result A :=
  match m with
  | Ok a => Ok a
  | Throw e => h e
  end.

(** ** The [ip-address] package

    [Address4] and [Address6] are modelled after the package's behaviour
    (versions whose constructors throw [AddressError] on invalid text):
    the grammar they accept, [correctForm], [is4], [to4] and [isInSubnet].
    An address is kept as its parsed groups; the package's [BigInteger]
    value and its binary strings are integers here, and the first [n]
    characters of the zero-padded binary string are [Z.shiftr] by the
    remaining width. *)

(** The match of [/\/\d{1,n}$/]: the text before the slash and the digits. *)
Definition subnet_suffix (n : nat) (s : string) : option (string * string) :=
  match Str.cut_last "/" s with
  | Some (before, digits) =>
      if Str.all_chars Str.is_digit digits
         && (1 <=? String.length digits)%nat && (String.length digits <=? n)%nat
      then Some (before, digits)
      else None
  | None => None
  end.

Module Address4.

Record t : Type := mk {
  address : string;             (* the text given to the constructor *)
  parsedAddress : list string;  (* the four groups as written *)
  subnetMask : Z
}.

Definition BITS : Z := 32.

Definition group_value (g : string) : Z := default 0 (Str.parseInt10 g).

(** One group of [RE_ADDRESS]: [25[0-5]|2[0-4][0-9]|[01]?[0-9][0-9]?],
    that is one to three decimal digits of value at most 255. *)
Definition group_ok (g : string) : bool :=
  Str.all_chars Str.is_digit g
  && (1 <=? String.length g)%nat && (String.length g <=? 3)%nat
  && (group_value g <=? 255).

(** [text.match(RE_ADDRESS)]: four such groups separated by dots. *)
Definition is_address (text : string) : bool :=
  (length (Str.split "." text) =? 4)%nat && forallb group_ok (Str.split "." text).

(** [new Address4(address)]. *)
Definition new (address : string) : result t :=
  '(addr, mask) ←
    match subnet_suffix 2 address with
    | Some (a, digits) =>
        let m := group_value digits in
        if BITS <? m then Throw (AddressError "Invalid subnet mask.")
        else Ok (a, m)
    | None => Ok (address, BITS)
    end;
  if is_address addr
  then Ok {| address := address; parsedAddress := Str.split "." addr; subnetMask := mask |}
  else Throw (AddressError "Invalid IPv4 address.").

Definition correctForm (a : t) : string :=
  Str.join "." (map (fun part => Str.dec (group_value part)) (parsedAddress a)).

Definition bigInteger (a : t) : Z :=
  fold_left (fun acc part => acc * 256 + group_value part) (parsedAddress a) 0.

(** [a.mask(n)]: the first [n] bits. *)
Definition mask (a : t) (n : Z) : Z := Z.shiftr (bigInteger a) (BITS - n).

(** [this.isInSubnet(address)]. *)
Definition isInSubnet (this address : t) : bool :=
  if subnetMask this <? subnetMask address then false
  else mask this (subnetMask address) =? mask address (subnetMask address).

(** [a.toGroup6()]: the two 16-bit groups in hexadecimal. *)
Definition toGroup6 (a : t) : string :=
  match map group_value (parsedAddress a) with
  | [a0; a1; a2; a3] => Str.hex (a0 * 256 + a1) +:+ ":" +:+ Str.hex (a2 * 256 + a3)
  | _ => EmptyString
  end.

(** The text built by [Address4.fromHex] from a 32-bit value. *)
Definition dotted (n : Z) : string :=
  Str.join "."
    [Str.dec (n / 16777216 mod 256); Str.dec (n / 65536 mod 256);
     Str.dec (n / 256 mod 256); Str.dec (n mod 256)].

End Address4.

Module Address6.

Record t : Type := mk {
  address : string;        (* the text given to the constructor *)
  parsedAddress : list Z;  (* the eight groups, as values *)
  subnetMask : Z;
  v4 : bool;               (* the text ended in a dotted quad *)
  zone : string
}.

Definition BITS : Z := 128.
Definition GROUPS : nat := 8.

(** The match of [RE_SUBNET_STRING], [/\/\d{1,3}(?=%|$)/]: a prefix length
    at the end of the text or just before the zone. *)
Definition strip_subnet (address : string) : option (string * string) :=
  match subnet_suffix 3 address with
  | Some r => Some r
  | None =>
      let '(m, z) := Str.cut_at "%" address in
      match subnet_suffix 3 m with
      | Some (a, digits) => Some (a +:+ z, digits)
      | None => None
      end
  end.

(** [/^0[0-9]+/.test(g)]. *)
Definition leading_zero (g : string) : bool :=
  match g with
  | String c (String d _) => Ascii.eqb c "0" && Str.is_digit d
  | _ => false
  end.

(** [parse4in6]: a dotted quad in the last group is replaced by its two
    hexadecimal groups, and the address is flagged [v4]. *)
Definition parse4in6 (address : string) : result (string * bool) :=
  let groups := Str.split ":" address in
  let lastGroup := List.last groups EmptyString in
  if Address4.is_address lastGroup then
    address4 ← Address4.new lastGroup;
    if existsb leading_zero (Address4.parsedAddress address4)
    then Throw (AddressError "IPv4 addresses can't have leading zeroes.")
    else Ok (Str.join ":" (removelast groups ++ [Address4.toGroup6 address4])%list, true)
  else Ok (address, false).

(** A group after [RE_BAD_CHARACTERS] and [RE_BAD_ADDRESS] have passed:
    one to four hexadecimal digits. *)
Definition parse_group (g : string) : option Z :=
  if Str.all_chars Str.is_hex g
     && (1 <=? String.length g)%nat && (String.length g <=? 4)%nat
  then Str.parseInt16 g
  else None.

Definition half_groups (h : string) : list string :=
  if String.eqb h EmptyString then [] else Str.split ":" h.

(** The groups of a text, with the run of zero groups that [::] elides
    written out. *)
Definition expand_elision (address : string) : result (list string) :=
  match Str.split_dcolon address with
  | [h0; h1] =>
      let first := half_groups h0 in
      let last := half_groups h1 in
      let remaining := (Z.of_nat GROUPS - Z.of_nat (length first + length last)) in
      if remaining <=? 0 then Throw (AddressError "Error parsing groups")
      else Ok (first ++ repeat "0" (Z.to_nat remaining) ++ last)%list
  | [_] => Ok (Str.split ":" address)
  | _ => Throw (AddressError "Too many :: groups found")
  end.

(** [parse]: the eight groups of the text, and whether it had a dotted
    quad.  The package's two regular-expression checks are rendered by
    their effect: every character is a hexadecimal digit or a colon, and
    every group has one to four digits.  This is stricter than the package
    on one kind of text: a slash left in a group after the prefix length
    has been cut off (as in [::1/64/64]) passes the package's checks and the
    group is read up to the slash; here the text is refused. *)
Definition parse (address : string) : result (list Z * bool) :=
  '(address, is_v4) ← parse4in6 address;
  if negb (Str.all_chars (fun c => Str.is_hex c || Ascii.eqb c ":") address)
  then Throw (AddressError "Bad character detected in address")
  else
    groups ← expand_elision address;
    if negb (length groups =? GROUPS)%nat
    then Throw (AddressError "Incorrect number of groups found")
    else
      match mapM parse_group groups with
      | Some values => Ok (values, is_v4)
      | None => Throw (AddressError "Address failed regex")
      end.

(** [new Address6(address)]. *)
Definition new (address : string) : result t :=
  '(addr, mask) ←
    match strip_subnet address with
    | Some (a, digits) =>
        let m := Address4.group_value digits in
        if BITS <? m then Throw (AddressError "Invalid subnet mask.")
        else Ok (a, m)
    | None =>
        if Str.includes "/" address then Throw (AddressError "Invalid subnet mask.")
        else Ok (address, BITS)
    end;
  let '(addressMinusSuffix, zone) := Str.cut_at "%" addr in
  '(groups, is_v4) ← parse addressMinusSuffix;
  Ok {| address := address; parsedAddress := groups; subnetMask := mask;
        v4 := is_v4; zone := zone |}.

Definition is4 (a : t) : bool := v4 a.

Definition bigInteger (a : t) : Z :=
  fold_left (fun acc g => acc * 65536 + g) (parsedAddress a) 0.

Definition mask (a : t) (n : Z) : Z := Z.shiftr (bigInteger a) (BITS - n).

Definition isInSubnet (this address : t) : bool :=
  if subnetMask this <? subnetMask address then false
  else mask this (subnetMask address) =? mask address (subnetMask address).

(** [a.to4()]: the address made of the last 32 bits. *)
Definition to4 (a : t) : result Address4.t :=
  Address4.new (Address4.dotted (bigInteger a mod 4294967296)).

(** The runs of two or more zero groups, as [(first, last)] indices, in
    the order [correctForm] pushes them. *)
Fixpoint zero_runs (groups : list Z) (i zeroCounter : nat) : list (nat * nat) :=
  let run := if (1 <? zeroCounter)%nat then [((i - zeroCounter)%nat, (i - 1)%nat)] else [] in
  match groups with
  | [] => run
  | value :: rest =>
      if value =? 0 then zero_runs rest (S i) (S zeroCounter)
      else (run ++ zero_runs rest (S i) 0)%list
  end.

(** [zeroes[zeroLengths.indexOf(Math.max(...zeroLengths))]]: the first of
    the longest runs. *)
Fixpoint longest_run (runs : list (nat * nat)) : option (nat * nat) :=
  match runs with
  | [] => None
  | r :: rest =>
      match longest_run rest with
      | Some r' =>
          if (snd r - fst r <? snd r' - fst r')%nat then Some r' else Some r
      | None => Some r
      end
  end.

(** [a.correctForm()]: lower-case groups without leading zeros, the first
    longest run of zero groups written [::]. *)
Definition correctForm (a : t) : string :=
  let groups := parsedAddress a in
  match longest_run (zero_runs groups 0 0) with
  | Some (n0, n1) =>
      Str.join ":" (map Str.hex (take n0 groups)) +:+ "::"
      +:+ Str.join ":" (map Str.hex (drop (S n1) groups))
  | None => Str.join ":" (map Str.hex groups)
  end.

End Address6.

(** ** Values, collaborators and the world *)

(** The fields of a WHATWG [URL] object the program reads. *)
Record URL : Type := mkURL {
  href : string;
  protocol : string;   (* with its colon: ["https:"] *)
  hostname : string;
  port : string;       (* empty when absent or the scheme's default *)
  pathname : string
}.

(** What [dns.lookup] resolves to. *)
Record LookupAddress : Type := mkLookupAddress {
  address : string;
  family : Z
}.

(** Property values of an options object. *)
Inductive value : Type :=
  | VUndefined
  | VNull
  | VBool (b : bool)
  | VNum (n : Z)
  | VStr (s : string)
  | VSignal (controller : nat)   (* the [signal] of an [AbortController] *)
  | VObject (ref : nat).         (* any other object, by reference *)

Record Response : Type := mkResponse {
  status : Z;
  body : string
}.

(** The callbacks given to [setTimeout]; the program has one,
    [() => controller.abort()]. *)
Inductive callback : Type :=
  | CbAbort (controller : nat).

(** What the program does to the outside, in order. *)
Inductive event : Type :=
  | EvLookup (hostname : string)
  | EvNewAbortController (controller : nat)
  | EvSetTimeout (id : nat) (cb : callback) (delay : value)
  | EvFetch (input : URL) (init : gmap string value)
  | EvTimerFired (id : nat)
  | EvAbort (controller : nat)
  | EvClearTimeout (id : nat).

Record timer : Type := mkTimer {
  timer_id : nat;
  timer_cb : callback;
  timer_delay : value
}.

Record World : Type := mkWorld {
  trace : list event;
  timers : list timer;   (* armed, neither fired nor cleared *)
  next_id : nat
}.

Definition initial : World := {| trace := []; timers := []; next_id := 0 |}.

(** The collaborators: the URL parser ([None] when [new URL] throws), the
    resolver, the public-suffix oracle, and the transport, which for a
    request tells after how many milliseconds it settles and how ([None]
    when it never does on its own). *)
Record Env : Type := mkEnv {
  url_parse : string -> option URL;
  dns_lookup : string -> result LookupAddress;
  psl_isValid : string -> bool;
  transport : URL -> gmap string value -> option (Z * result Response)
}.

(** The settlement of a promise: fulfilled, rejected, or never settled. *)
Inductive outcome (A : Type) : Type :=
  | Returned (a : A)
  | Thrown (e : exn)
  | Pending.
Arguments Returned {A} a.
Arguments Thrown {A} e.
Arguments Pending {A}.

(** Asynchronous code: a transition of the world with an outcome. *)
Definition Async (A : Type) : Type := World -> outcome A * World.

#[export] Instance Async_ret : MRet Async := fun A a w => (Returned a, w).
#[export] Instance Async_bind : MBind Async := fun A B f m w =>
  match m w with
  | (Returned a, w') => f a w'
  | (Thrown e, w') => (Thrown e, w')
  | (Pending, w') => (Pending, w')
  end.

Definition throw {A} (e : exn) : Async A := fun w => (Thrown e, w).

(** A synchronous call inside asynchronous code. *)
Definition lift {A} (r : result A) : Async A :=
  match r with
  | Ok a => mret a
  | Throw e => throw e
  end.

(** [try { m } catch { h }]. *)
Definition try_catch_async {A} (m : Async A) (h : exn -> Async A) : Async A :=
  fun w =>
    match m w with
    | (Thrown e, w') => h e w'
    | r => r
    end.

(** [try { m } finally { f }]: [f] runs once [m] has settled, whichever
    way, and the outcome of [m] stands unless [f] throws. *)
Definition try_finally {A} (m : Async A) (f : Async unit) : Async A :=
  fun w =>
    match m w with
    | (Pending, w') => (Pending, w')
    | (r, w') =>
        match f w' with
        | (Returned _, w'') => (r, w'')
        | (Thrown e, w'') => (Thrown e, w'')
        | (Pending, w'') => (Pending, w'')
        end
    end.

Definition emit (e : event) (w : World) : World :=
  {| trace := trace w ++ [e]; timers := timers w; next_id := next_id w |}.

(** [new AbortController()]. *)
Definition new_AbortController : Async nat := fun w =>
  let c := next_id w in
  (Returned c,
   {| trace := trace w ++ [EvNewAbortController c]; timers := timers w;
      next_id := S c |}).

(** [setTimeout(cb, delay)]. *)
Definition setTimeout (cb : callback) (delay : value) : Async nat := fun w =>
  let id := next_id w in
  (Returned id,
   {| trace := trace w ++ [EvSetTimeout id cb delay];
      timers := timers w ++ [mkTimer id cb delay];
      next_id := S id |}).

Definition remove_timer (id : nat) (ts : list timer) : list timer :=
  filter (fun t => timer_id t ≠ id) ts.

(** [clearTimeout(id)]. *)
Definition clearTimeout (id : nat) : Async unit := fun w =>
  (Returned tt,
   {| trace := trace w ++ [EvClearTimeout id];
      timers := remove_timer id (timers w);
      next_id := next_id w |}).

(** The delay the runtime gives a timer: Node.js sets a delay that is not
    a number between 1 and 2147483647 to 1.  [timeout] is declared
    [number]: the coercion Node.js applies to a value of another type (the
    string ["200"] arms 200 ms) is not modelled, such a value counts as 1. *)
Definition delay_ms (delay : value) : Z :=
  match delay with
  | VNum n => if (1 <=? n) && (n <=? 2147483647) then n else 1
  | _ => 1
  end.

(** The armed timer that aborts controller [c] soonest. *)
Fixpoint abort_timer (c : nat) (ts : list timer) : option timer :=
  match ts with
  | [] => None
  | t :: rest =>
      let '(CbAbort c') := timer_cb t in
      if negb (c' =? c)%nat then abort_timer c rest
      else
        match abort_timer c rest with
        | Some t' =>
            if delay_ms (timer_delay t') <? delay_ms (timer_delay t)
            then Some t' else Some t
        | None => Some t
        end
  end.

(** The timer [t] fires while a request carrying the signal of its
    controller is in flight: the callback aborts the controller and the
    transport, which honours the signal, rejects with [AbortError]. *)
Definition fire {A} (t : timer) : Async A := fun w =>
  let '(CbAbort c) := timer_cb t in
  (Thrown AbortError,
   {| trace := trace w ++ [EvTimerFired (timer_id t); EvAbort c];
      timers := remove_timer (timer_id t) (timers w);
      next_id := next_id w |}).

Section Program.

Variable env : Env.

(** [new URL(text)]. *)
Definition new_URL (text : string) : Async URL :=
  match url_parse env text with
  | Some u => mret u
  | None => throw (TypeError "Invalid URL")
  end.

(** [lookup(hostname)] of [node:dns/promises]. *)
Definition lookup (hostname : string) : Async LookupAddress := fun w =>
  lift (dns_lookup env hostname) (emit (EvLookup hostname) w).

(** [fetch(input, init)].  The request races the timer that aborts the
    controller whose signal it carries: it settles as the transport says
    unless that timer is due strictly earlier.  Timers count from the
    start of the request: the program arms its timer in the statement
    before the call, with no [await] in between. *)
Definition fetch (input : URL) (init : gmap string value) : Async Response :=
  fun w =>
    let w := emit (EvFetch input init) w in
    let deadline :=
      match init !! "signal" with
      | Some (VSignal c) => abort_timer c (timers w)
      | _ => None
      end in
    match transport env input init, deadline with
    | Some (latency, r), Some t =>
        if delay_ms (timer_delay t) <? latency then fire t w else lift r w
    | Some (_, r), None => lift r w
    | None, Some t => fire t w
    | None, None => (Pending, w)
    end.

(** ** The program, [src/index.ts] *)

Definition DEFAULT_TIMEOUT : Z := 10000.
Definition ALLOWED_PORTS : gset Z := {[ 80; 443 ]}.
Definition ALLOWED_SCHEMES : gset string := {[ "http"; "https" ]}.
Definition AWS_IMDS_ENDPOINT : string := "169.254.169.254".

Definition normalizeIP (ip : string) : result string :=
  try_catch
    (if Str.includes ":" ip then
       addr6 ← Address6.new ip;
       if Address6.is4 addr6 then
         a4 ← Address6.to4 addr6;
         a ← Address4.new (Address4.address a4);
         Ok (Address4.correctForm a)
       else Ok (Address6.correctForm addr6)
     else
       a ← Address4.new ip;
       Ok (Address4.correctForm a))
    (fun _ => Throw (Error ("Invalid IP address: " +:+ ip))).

Definition PRIVATE_IPV4_RANGES : list string :=
  [ "0.0.0.0/8"; "10.0.0.0/8"; "100.64.0.0/10"; "127.0.0.0/8";
    "169.254.0.0/16"; "172.16.0.0/12"; "192.168.0.0/16"; "198.18.0.0/15";
    "240.0.0.0/4" ].

Definition PRIVATE_IPV6_RANGES : list string :=
  [ "::1/128"; "::/128"; "fc00::/7"; "fe80::/10" ].

(** [l.some(f)] for a callback that may throw. *)
Fixpoint some {A} (f : A -> result bool) (l : list A) : result bool :=
  match l with
  | [] => Ok false
  | x :: rest =>
      b ← f x;
      if b : bool then Ok true else some f rest
  end.

Definition isPrivateHostname (hostname : string) : Async bool :=
  try_catch_async
    (ip ← lookup hostname;
     normalizedIP ← lift (normalizeIP (address ip));
     if family ip =? 4 then
       addr ← lift (Address4.new normalizedIP);
       if String.eqb normalizedIP AWS_IMDS_ENDPOINT then mret true
       else
         lift (some (fun range => r ← Address4.new range;
                                  Ok (Address4.isInSubnet addr r))
                    PRIVATE_IPV4_RANGES)
     else
       addr ← lift (Address6.new normalizedIP);
       lift (some (fun range => r ← Address6.new range;
                                Ok (Address6.isInSubnet addr r))
                  PRIVATE_IPV6_RANGES))
    (fun _ => throw (Error ("Invalid hostname: " +:+ hostname))).

(** [url.port ? parseInt(url.port, 10) : url.protocol === 'https:' ? 443 : 80];
    [None] is NaN. *)
Definition effective_port (url : URL) : option Z :=
  if negb (String.eqb (port url) EmptyString) then Str.parseInt10 (port url)
  else if String.eqb (protocol url) "https:" then Some 443 else Some 80.

(** [ALLOWED_PORTS.has(port)]. *)
Definition port_allowed (p : option Z) : bool :=
  match p with
  | Some n => bool_decide (n ∈ ALLOWED_PORTS)
  | None => false
  end.

(** A number in a template literal. *)
Definition show_number (p : option Z) : string :=
  match p with
  | Some n => Str.dec n
  | None => "NaN"
  end.

(** [ALLOWED_SCHEMES.has(url.protocol.slice(0, -1))]. *)
Definition scheme_allowed (url : URL) : bool :=
  bool_decide (Str.drop_last (protocol url) ∈ ALLOWED_SCHEMES).

Definition validateUrl (urlString : string) : Async URL :=
  url ← new_URL urlString;
  (* Validate scheme *)
  if negb (scheme_allowed url)
  then throw (Error ("Invalid scheme: " +:+ protocol url))
  else
    (* Validate port *)
    let port := effective_port url in
    if negb (port_allowed port)
    then throw (Error ("Invalid port: " +:+ show_number port))
    else
      (* Validate hostname against public suffix list *)
      if negb (psl_isValid env (hostname url))
      then throw (Error ("Invalid hostname: " +:+ hostname url))
      else
        (* Check for private network *)
        private ← isPrivateHostname (hostname url);
        if private : bool
        then throw (Error "Private network addresses are not allowed")
        else mret url.

(** [url.toString()] for [url: string | URL]. *)
Definition toString (url : string + URL) : string :=
  match url with
  | inl s => s
  | inr u => href u
  end.

(** [options.timeout ?? DEFAULT_TIMEOUT]. *)
Definition timeout_of (options : gmap string value) : value :=
  match options !! "timeout" with
  | None | Some VUndefined | Some VNull => VNum DEFAULT_TIMEOUT
  | Some v => v
  end.

Definition serverFetch (url : string + URL) (options : gmap string value)
    : Async Response :=
  let urlString := toString url in
  validatedUrl ← validateUrl urlString;
  controller ← new_AbortController;
  let timeout := timeout_of options in
  timeoutId ← setTimeout (CbAbort controller) timeout;
  try_finally
    (response ← fetch validatedUrl (<["signal" := VSignal controller]> options);
     mret response)
    (clearTimeout timeoutId).

End Program.

(** ** The specification's address model

    Section 3 and 4.2 of the specification, in its own words: an address is
    a tagged value, a range is a base address and a prefix length, and an
    address is private when it lies in a declared range of its family or is
    the cloud-metadata address. *)

Inductive IPAddress : Type :=
  | V4 (n : Z)    (* 32 bits *)
  | V6 (n : Z).   (* 128 bits *)

Record CIDRRange : Type := mkCIDR {
  base : IPAddress;
  prefix : Z
}.

Definition ipv4 (a b c d : Z) : IPAddress :=
  V4 (((a * 256 + b) * 256 + c) * 256 + d).

Definition ipv6 (groups : list Z) : IPAddress :=
  V6 (fold_left (fun acc g => acc * 65536 + g) groups 0).

(** [isInRange]: never a match when the families differ. *)
Definition isInRange (a : IPAddress) (r : CIDRRange) : bool :=
  match a, base r with
  | V4 n, V4 b => (b <=? n) && (n <? b + 2 ^ (32 - prefix r))
  | V6 n, V6 b => (b <=? n) && (n <? b + 2 ^ (128 - prefix r))
  | _, _ => false
  end.

Definition declared_ipv4_ranges : list CIDRRange :=
  [ mkCIDR (ipv4 0 0 0 0) 8; mkCIDR (ipv4 10 0 0 0) 8;
    mkCIDR (ipv4 100 64 0 0) 10; mkCIDR (ipv4 127 0 0 0) 8;
    mkCIDR (ipv4 169 254 0 0) 16; mkCIDR (ipv4 172 16 0 0) 12;
    mkCIDR (ipv4 192 168 0 0) 16; mkCIDR (ipv4 198 18 0 0) 15;
    mkCIDR (ipv4 240 0 0 0) 4 ].

Definition declared_ipv6_ranges : list CIDRRange :=
  [ mkCIDR (ipv6 [0; 0; 0; 0; 0; 0; 0; 1]) 128;
    mkCIDR (ipv6 [0; 0; 0; 0; 0; 0; 0; 0]) 128;
    mkCIDR (ipv6 [64512; 0; 0; 0; 0; 0; 0; 0]) 7;     (* fc00::/7 *)
    mkCIDR (ipv6 [65152; 0; 0; 0; 0; 0; 0; 0]) 10 ].  (* fe80::/10 *)

Definition metadata_address : IPAddress := ipv4 169 254 169 254.

Definition same_address (a b : IPAddress) : bool :=
  match a, b with
  | V4 n, V4 m => n =? m
  | V6 n, V6 m => n =? m
  | _, _ => false
  end.

Definition ranges_of_family (a : IPAddress) : list CIDRRange :=
  match a with
  | V4 _ => declared_ipv4_ranges
  | V6 _ => declared_ipv6_ranges
  end.

(** [isPrivate]: a range of the address's family matches, or the address
    is the metadata address. *)
Definition isPrivate (a : IPAddress) : bool :=
  existsb (isInRange a) (ranges_of_family a) || same_address a metadata_address.

(** Section 4.1 and the glossary: an IPv4-mapped IPv6 address carries an
    IPv4 address in its low 32 bits under the prefix [::ffff:0:0/96], and is
    folded to that address before range testing. *)
Definition embedded_ipv4 (a : IPAddress) : option IPAddress :=
  match a with
  | V6 n => if n / 4294967296 =? 65535 then Some (V4 (n mod 4294967296)) else None
  | V4 _ => None
  end.

Definition fold_mapped (a : IPAddress) : IPAddress :=
  match embedded_ipv4 a with
  | Some v => v
  | None => a
  end.

(** Private in the sense of sections 4.1 and 4.2 together: the range test
    after folding. *)
Definition isPrivate_folded (a : IPAddress) : bool := isPrivate (fold_mapped a).

(** The address a resolver answer stands for: the text read by the
    family's constructor.  An IPv6 text that ends in a dotted quad is the
    subject of the folding rule and is not covered here. *)
Definition resolved_address (ip : LookupAddress) : option IPAddress :=
  if family ip =? 4 then
    match Address4.new (address ip) with
    | Ok a => Some (V4 (Address4.bigInteger a))
    | Throw _ => None
    end
  else if family ip =? 6 then
    match Address6.new (address ip) with
    | Ok a => if Address6.v4 a then None else Some (V6 (Address6.bigInteger a))
    | Throw _ => None
    end
  else None.

(** The specification's names for the errors of the program. *)
Definition InvalidURL : exn := TypeError "Invalid URL".
Definition InvalidScheme (protocol : string) : exn :=
  Error ("Invalid scheme: " +:+ protocol).
Definition InvalidPort (port : option Z) : exn :=
  Error ("Invalid port: " +:+ show_number port).
Definition InvalidHostname (hostname : string) : exn :=
  Error ("Invalid hostname: " +:+ hostname).
Definition PrivateNetworkDenied : exn :=
  Error "Private network addresses are not allowed".

(** ** Notions used in the proofs *)

(** A group of an IPv6 text: not empty, no colon. *)
Definition group_like (g : string) : Prop :=
  g <> EmptyString /\ Str.includes ":" g = false.

(** [p] put in front of the first piece. *)
Definition prepend (p : string) (l : list string) : list string :=
  match l with
  | h :: t => (p +:+ h) :: t
  | [] => [p]
  end.

Fixpoint upto (k : nat) (from : Z) : list Z :=
  match k with
  | O => []
  | S k' => from :: upto k' (from + 1)
  end.

(** The integers from 0 up to [n], excluded. *)
Definition below (n : Z) : list Z := upto (Z.to_nat n) 0.

(** The decimal text of a byte reads back as the byte and is a group the
    IPv4 grammar accepts, without a leading zero. *)
Definition byte_text_ok (n : Z) : bool :=
  let s := Str.dec n in
  Address4.group_ok s && (Address4.group_value s =? n)
  && negb (Address6.leading_zero s).

(** The hexadecimal text of a 16-bit group reads back as the group. *)
Definition group_text_ok (n : Z) : bool :=
  match Address6.parse_group (Str.hex n) with
  | Some v => v =? n
  | None => false
  end.

Definition byte (n : Z) : Prop := 0 <= n < 256.

(** The canonical dotted quad of four bytes. *)
Definition quad (b0 b1 b2 b3 : Z) : string :=
  Str.join "." [Str.dec b0; Str.dec b1; Str.dec b2; Str.dec b3].

Definition group16 (g : Z) : Prop := 0 <= g < 65536.

(** Whether each group is zero: all that the choice of the elided run
    depends on. *)
Definition zero_pattern (groups : list Z) : list Z :=
  map (fun v => if v =? 0 then 0 else 1) groups.

Fixpoint patterns (n : nat) : list (list Z) :=
  match n with
  | O => [[]]
  | S k => flat_map (fun p => [0 :: p; 1 :: p]) (patterns k)
  end.

(** The run [correctForm] elides lies inside the address, has at least two
    groups, and they are all zero. *)
Definition run_ok (p : list Z) : bool :=
  match Address6.longest_run (Address6.zero_runs p 0 0) with
  | None => true
  | Some (n0, n1) =>
      (n0 <? n1)%nat && (n1 <? 8)%nat
      && forallb (Z.eqb 0) (take (S n1 - n0) (drop n0 p))
  end.

Definition wf6 (a : Address6.t) : Prop :=
  length (Address6.parsedAddress a) = 8%nat
  /\ Forall group16 (Address6.parsedAddress a).

(** What [isPrivateHostname] computes from the resolver's answer: the body
    of its [try] block after the [await]. *)
Definition classify (ip : LookupAddress) : result bool :=
  normalizedIP ← normalizeIP (address ip);
  if family ip =? 4 then
    addr ← Address4.new normalizedIP;
    if String.eqb normalizedIP AWS_IMDS_ENDPOINT then Ok true
    else some (fun range => r ← Address4.new range;
                            Ok (Address4.isInSubnet addr r))
              PRIVATE_IPV4_RANGES
  else
    addr ← Address6.new normalizedIP;
    some (fun range => r ← Address6.new range;
                       Ok (Address6.isInSubnet addr r))
         PRIVATE_IPV6_RANGES.

(** A range text of the program's table and a declared range of the
    specification are the same range: same prefix length, same base, and
    the base has no bit set after the prefix. *)
Definition range_agrees4 (range : string) (c : CIDRRange) : bool :=
  match Address4.new range, base c with
  | Ok r, V4 b =>
      (Address4.subnetMask r =? prefix c) && (0 <=? prefix c) && (prefix c <=? 32)
      && (Address4.bigInteger r =? b) && (0 <=? b) && (b mod 2 ^ (32 - prefix c) =? 0)
  | _, _ => false
  end.

Definition range_agrees6 (range : string) (c : CIDRRange) : bool :=
  match Address6.new range, base c with
  | Ok r, V6 b =>
      (Address6.subnetMask r =? prefix c) && (0 <=? prefix c) && (prefix c <=? 128)
      && (Address6.bigInteger r =? b) && (0 <=? b) && (b mod 2 ^ (128 - prefix c) =? 0)
  | _, _ => false
  end.

(** Identifiers are handed out in order: an armed timer, and the
    controller it aborts, are older than the next identifier. *)
Definition wf_world (w : World) : Prop :=
  Forall (fun t => (timer_id t < next_id w)%nat
                   /\ match timer_cb t with
                      | CbAbort c => (c < next_id w)%nat
                      end) (timers w).

(** The timer with this delay is due before the transport settles the
    request. *)
Definition fires_first (env : Env) (input : URL) (init : gmap string value)
    (delay : value) : bool :=
  match transport env input init with
  | Some (latency, _) => delay_ms delay <? latency
  | None => true
  end.

Definition is_fetch (e : event) : bool :=
  match e with
  | EvFetch _ _ => true
  | _ => false
  end.

Definition is_timer_event (e : event) : bool :=
  match e with
  | EvNewAbortController _ | EvSetTimeout _ _ _ => true
  | _ => false
  end.

(** The effective port in the specification's words: the explicit port if
    present, else 443 for https and 80 for http. *)
Definition spec_effective_port (url : URL) : option Z :=
  if String.eqb (port url) EmptyString then
    if String.eqb (Str.drop_last (protocol url)) "https" then Some 443
    else if String.eqb (Str.drop_last (protocol url)) "http" then Some 80
    else None
  else Str.parseInt10 (port url).


(** ** A small world to run the program in *)

Definition demo_url (protocol hostname port : string) : URL :=
  {| href := protocol +:+ "//" +:+ hostname
             +:+ (if String.eqb port EmptyString then EmptyString else ":" +:+ port)
             +:+ "/";
     protocol := protocol; hostname := hostname; port := port; pathname := "/" |}.

Definition demo_urls : list URL :=
  [ demo_url "https:" "example.com" "";
    demo_url "https:" "example.com" "80";
    demo_url "https:" "example.com" "8443";
    demo_url "ftp:" "example.com" "";
    demo_url "https:" "localhost" "";
    demo_url "https:" "intranet.example.com" "";
    demo_url "https:" "linklocal.example.com" "";
    demo_url "http:" "metadata.example.com" "";
    demo_url "https:" "mapped.example.com" "";
    demo_url "https:" "nowhere.example.com" "";
    demo_url "https:" "garbled.example.com" "" ].

Definition demo_hosts : list (string * result LookupAddress) :=
  [ ("example.com", Ok (mkLookupAddress "93.184.216.34" 4));
    ("intranet.example.com", Ok (mkLookupAddress "10.1.2.3" 4));
    ("linklocal.example.com", Ok (mkLookupAddress "fe80::1" 6));
    ("metadata.example.com", Ok (mkLookupAddress "169.254.169.254" 4));
    ("mapped.example.com", Ok (mkLookupAddress "::ffff:10.0.0.1" 6));
    ("garbled.example.com", Ok (mkLookupAddress "not-an-address" 4)) ].

Fixpoint assoc {A} (k : string) (l : list (string * A)) : option A :=
  match l with
  | [] => None
  | (k', v) :: rest => if String.eqb k k' then Some v else assoc k rest
  end.

(** The URLs above are the ones that parse, the hosts above the ones that
    resolve, a hostname with a dot has a public suffix, and every request
    is answered after 120 ms. *)
Definition demo_env : Env :=
  {| url_parse := fun text => List.find (fun u => String.eqb (href u) text) demo_urls;
     dns_lookup := fun h => default (Throw (DNSError "ENOTFOUND")) (assoc h demo_hosts);
     psl_isValid := Str.includes ".";
     transport := fun _ _ => Some (120, Ok (mkResponse 200 "ok")) |}.

(** The same world with another answer for one hostname. *)
Definition with_answer (env : Env) (hostname : string)
    (answer : result LookupAddress) : Env :=
  {| url_parse := url_parse env;
     dns_lookup := fun h => if String.eqb h hostname then answer else dns_lookup env h;
     psl_isValid := psl_isValid env;
     transport := transport env |}.

(** One step of the two monads. *)
Ltac run_async :=
  cbv beta iota delta
    [mbind Async_bind result_bind mret Async_ret result_ret lift throw].

(** * Properties *)

(** ** Strings *)

Section StrFacts.

Import Str.

Lemma append_assoc (a b c : string) : (a +:+ b) +:+ c = a +:+ (b +:+ c).
Proof. induction a; simpl; congruence. Qed.

Lemma includes_app (c : ascii) (a b : string) :
  includes c (a +:+ b) = includes c a || includes c b.
Proof.
  induction a as [|x a IH]; simpl; [reflexivity|].
  rewrite IH. apply orb_assoc.
Qed.

Lemma all_chars_app (p : ascii -> bool) (a b : string) :
  all_chars p (a +:+ b) = all_chars p a && all_chars p b.
Proof.
  induction a as [|x a IH]; simpl; [reflexivity|].
  rewrite IH. apply andb_assoc.
Qed.

Lemma all_chars_weaken (p q : ascii -> bool) (s : string) :
  (forall c, p c = true -> q c = true) ->
  all_chars p s = true -> all_chars q s = true.
Proof.
  intros Hpq. induction s as [|x s IH]; simpl; [reflexivity|].
  intros [Hx Hs]%andb_true_iff. rewrite (Hpq _ Hx), (IH Hs). reflexivity.
Qed.

Lemma all_chars_not_includes (p : ascii -> bool) (c : ascii) (s : string) :
  p c = false -> all_chars p s = true -> includes c s = false.
Proof.
  intros Hc. induction s as [|x s IH]; simpl; [reflexivity|].
  intros [Hx Hs]%andb_true_iff. rewrite (IH Hs), orb_false_r.
  destruct (Ascii.eqb_spec x c) as [->|]; [congruence | reflexivity].
Qed.

Lemma split_nosep (c : ascii) (s : string) :
  includes c s = false -> split c s = [s].
Proof.
  induction s as [|x s IH]; simpl; [reflexivity|].
  intros [Hx Hs]%orb_false_iff. rewrite Hx, (IH Hs). reflexivity.
Qed.

Lemma split_app (c : ascii) (a r : string) :
  includes c a = false -> split c (a +:+ String c r) = a :: split c r.
Proof.
  induction a as [|x a IH]; simpl.
  - intros _. rewrite Ascii.eqb_refl. reflexivity.
  - intros [Hx Ha]%orb_false_iff. rewrite Hx, (IH Ha). reflexivity.
Qed.

Lemma join_cons (sep x y : string) (l : list string) :
  join sep (x :: y :: l) = x +:+ sep +:+ join sep (y :: l).
Proof. reflexivity. Qed.

Lemma split_join (c : ascii) (l : list string) :
  l <> [] -> Forall (fun g => includes c g = false) l ->
  split c (join (String c EmptyString) l) = l.
Proof.
  induction l as [|x l IH]; [congruence|]. intros _ Hl.
  apply Forall_cons in Hl as [Hx Hl].
  destruct l as [|y l].
  - simpl. apply split_nosep, Hx.
  - rewrite join_cons. cbn [String.append].
    rewrite (split_app _ _ _ Hx), IH; [reflexivity | congruence | exact Hl].
Qed.

Lemma all_chars_join (p : ascii -> bool) (sep : string) (l : list string) :
  all_chars p sep = true -> Forall (fun g => all_chars p g = true) l ->
  all_chars p (join sep l) = true.
Proof.
  intros Hsep. induction l as [|x l IH]; [reflexivity|].
  intros [Hx Hl]%Forall_cons. destruct l as [|y l]; [exact Hx|].
  rewrite join_cons, !all_chars_app, Hx, Hsep, (IH Hl). reflexivity.
Qed.

Lemma all_chars_split (p : ascii -> bool) (c : ascii) (s : string) :
  forallb (all_chars p) (split c s) = true ->
  all_chars (fun x => p x || Ascii.eqb x c) s = true.
Proof.
  induction s as [|x s IH]; simpl; [reflexivity|].
  destruct (Ascii.eqb x c) eqn:Hx; simpl.
  - intros H. rewrite orb_true_r. simpl. apply IH, H.
  - destruct (split c s) as [|h t]; simpl in *.
    + rewrite !andb_true_r. intros ->. simpl. apply IH. reflexivity.
    + intros [[Hpx Hh]%andb_true_iff Ht]%andb_true_iff.
      rewrite Hpx. simpl. apply IH. rewrite Hh, Ht. reflexivity.
Qed.

Lemma split_all_chars (p : ascii -> bool) (c : ascii) (s : string) :
  all_chars p s = true -> Forall (fun g => all_chars p g = true) (split c s).
Proof.
  induction s as [|x s IH]; simpl.
  - intros _. repeat constructor.
  - intros [Hx Hs]%andb_true_iff. specialize (IH Hs).
    destruct (Ascii.eqb x c).
    + constructor; [reflexivity | exact IH].
    + destruct (split c s) as [|h t]; simpl.
      * repeat constructor. simpl. rewrite Hx. reflexivity.
      * apply Forall_cons in IH as [Hh Ht]. constructor; [|exact Ht].
        simpl. rewrite Hx, Hh. reflexivity.
Qed.

Lemma last_Forall {A} (P : A -> Prop) (l : list A) (d : A) :
  P d -> Forall P l -> P (List.last l d).
Proof.
  intros Hd. induction l as [|x l IH]; [intros _; exact Hd|].
  intros [Hx Hl]%Forall_cons. destruct l as [|y l]; [exact Hx|].
  apply IH, Hl.
Qed.

Lemma cut_at_absent (c : ascii) (s : string) :
  includes c s = false -> cut_at c s = (s, EmptyString).
Proof.
  induction s as [|x s IH]; simpl; [reflexivity|].
  intros [Hx Hs]%orb_false_iff. rewrite Hx, (IH Hs). reflexivity.
Qed.

Lemma cut_at_app (c : ascii) (s a b : string) :
  cut_at c s = (a, b) -> s = a +:+ b.
Proof.
  revert a b. induction s as [|x s IH]; simpl; intros a b.
  - intros [= <- <-]. reflexivity.
  - destruct (Ascii.eqb x c).
    + intros [= <- <-]. reflexivity.
    + destruct (cut_at c s) as [a' b']. intros [= <- <-].
      simpl. f_equal. apply IH. reflexivity.
Qed.

Lemma cut_last_absent (c : ascii) (s : string) :
  includes c s = false -> cut_last c s = None.
Proof.
  induction s as [|x s IH]; simpl; [reflexivity|].
  intros [Hx Hs]%orb_false_iff. rewrite (IH Hs), Hx. reflexivity.
Qed.

Lemma cut_last_app (c : ascii) (s a b : string) :
  cut_last c s = Some (a, b) -> s = a +:+ String c b.
Proof.
  revert a b. induction s as [|x s IH]; simpl; intros a b; [discriminate|].
  destruct (cut_last c s) as [[a' b']|].
  - intros [= <- <-]. simpl. f_equal. apply IH. reflexivity.
  - destruct (Ascii.eqb_spec x c) as [->|]; [|discriminate].
    intros [= <- <-]. reflexivity.
Qed.

(** [s.split('::')] on groups joined by single colons. *)

Lemma split_dcolon_2 (x y : ascii) (r : string) :
  split_dcolon (String x (String y r))
  = if Ascii.eqb x ":" && Ascii.eqb y ":" then EmptyString :: split_dcolon r
    else cons_head x (split_dcolon (String y r)).
Proof. reflexivity. Qed.

Lemma split_dcolon_cons (x : ascii) (r : string) :
  Ascii.eqb x ":" = false -> r <> EmptyString ->
  split_dcolon (String x r) = cons_head x (split_dcolon r).
Proof.
  intros Hx Hr. destruct r as [|y r]; [congruence|].
  rewrite split_dcolon_2, Hx. reflexivity.
Qed.

Lemma append_not_empty (a b : string) : b <> EmptyString -> a +:+ b <> EmptyString.
Proof. destruct a; simpl; [tauto | discriminate]. Qed.

Lemma split_dcolon_group (g rest : string) :
  includes ":" g = false ->
  split_dcolon (g +:+ String ":" (String ":" rest)) = g :: split_dcolon rest.
Proof.
  induction g as [|x g IH]; cbn [String.append includes].
  - intros _. reflexivity.
  - intros [Hx Hg]%orb_false_iff.
    rewrite split_dcolon_cons, (IH Hg); [reflexivity | exact Hx |].
    apply append_not_empty. discriminate.
Qed.

Lemma split_dcolon_nocolon (g : string) :
  includes ":" g = false -> split_dcolon g = [g].
Proof.
  induction g as [|x g IH]; cbn [includes]; [reflexivity|].
  intros [Hx Hg]%orb_false_iff. destruct g as [|y g]; [reflexivity|].
  rewrite split_dcolon_cons, (IH Hg); [reflexivity | exact Hx | discriminate].
Qed.

Lemma cons_head_prepend (x : ascii) (p : string) (l : list string) :
  cons_head x (prepend p l) = prepend (String x p) l.
Proof. destruct l; reflexivity. Qed.

Lemma split_dcolon_step (g : string) (y : ascii) (rest : string) :
  includes ":" g = false -> g <> EmptyString -> Ascii.eqb y ":" = false ->
  split_dcolon (g +:+ String ":" (String y rest))
  = prepend (g +:+ ":") (split_dcolon (String y rest)).
Proof.
  intros Hg Hne Hy. induction g as [|x g IH]; [congruence|].
  cbn [includes] in Hg. apply orb_false_iff in Hg as [Hx Hg].
  cbn [String.append].
  rewrite split_dcolon_cons; [| exact Hx | apply append_not_empty; discriminate].
  destruct g as [|x' g].
  - cbn [String.append]. rewrite split_dcolon_2, Hy, andb_false_r.
    destruct (split_dcolon (String y rest)) as [|h t] eqn:E; [|reflexivity].
    exfalso. destruct rest as [|z rest]; [discriminate|].
    rewrite split_dcolon_2 in E.
    destruct (Ascii.eqb y ":" && Ascii.eqb z ":"); [discriminate|].
    destruct (split_dcolon (String z rest)); discriminate.
  - rewrite (IH Hg) by discriminate. apply cons_head_prepend.
Qed.

Lemma join_group_starts (g : string) (l : list string) :
  group_like g ->
  exists y rest, join ":" (g :: l) = String y rest /\ Ascii.eqb y ":" = false.
Proof.
  intros [Hne Hg]. destruct g as [|y g]; [congruence|].
  cbn [includes] in Hg. apply orb_false_iff in Hg as [Hy _].
  destruct l as [|g' l]; [exists y, g; auto|].
  rewrite join_cons. cbn [String.append]. eauto.
Qed.

Lemma split_dcolon_join (gs : list string) :
  Forall group_like gs -> split_dcolon (join ":" gs) = [join ":" gs].
Proof.
  induction gs as [|g gs IH]; [reflexivity|].
  intros [[Hne Hg] Hgs]%Forall_cons.
  destruct gs as [|g' gs]; [apply split_dcolon_nocolon, Hg|].
  pose proof Hgs as [Hg' _]%Forall_cons.
  destruct (join_group_starts g' gs Hg') as (y & rest & E & Hy).
  rewrite join_cons. cbn [String.append].
  specialize (IH Hgs). rewrite E in *.
  rewrite split_dcolon_step, IH by assumption.
  cbn [prepend]. rewrite append_assoc. reflexivity.
Qed.

Lemma split_dcolon_join_elided (gs : list string) (rest : string) :
  Forall group_like gs ->
  split_dcolon (join ":" gs +:+ String ":" (String ":" rest))
  = join ":" gs :: split_dcolon rest.
Proof.
  induction gs as [|g gs IH]; [reflexivity|].
  intros [[Hne Hg] Hgs]%Forall_cons.
  destruct gs as [|g' gs]; [apply split_dcolon_group, Hg|].
  pose proof Hgs as [Hg' _]%Forall_cons.
  destruct (join_group_starts g' gs Hg') as (y & rest' & E & Hy).
  specialize (IH Hgs). rewrite join_cons, E in *.
  rewrite !append_assoc. cbn [String.append] in *.
  rewrite split_dcolon_step, IH by assumption.
  cbn [prepend]. rewrite append_assoc. reflexivity.
Qed.

Lemma join_group_not_empty (g : string) (l : list string) :
  group_like g -> join ":" (g :: l) <> EmptyString.
Proof.
  intros Hg. destruct (join_group_starts g l Hg) as (y & rest & -> & _).
  discriminate.
Qed.

Lemma includes_join_2 (x y : string) (l : list string) :
  includes ":" (join ":" (x :: y :: l)) = true.
Proof.
  rewrite join_cons, includes_app. cbn [String.append includes].
  rewrite orb_true_r. reflexivity.
Qed.

End StrFacts.

(** ** Numerals *)

Section Numerals.

Import Str.

Lemma upto_In (k : nat) (from z : Z) :
  from <= z < from + Z.of_nat k -> In z (upto k from).
Proof.
  revert from. induction k as [|k IH]; intros from Hz; [lia|].
  cbn [upto]. destruct (Z.eq_dec from z) as [->|]; [left; reflexivity|].
  right. apply IH. lia.
Qed.

Lemma below_In (n z : Z) : 0 <= z < n -> In z (below n).
Proof. intros Hz. apply upto_In. lia. Qed.

Lemma bytes_checked : forallb byte_text_ok (below 256) = true.
Proof. vm_compute. reflexivity. Qed.

Lemma groups_checked : forallb group_text_ok (below 65536) = true.
Proof. vm_compute. reflexivity. Qed.

Lemma dec_byte (n : Z) :
  0 <= n < 256 ->
  Address4.group_ok (dec n) = true /\ Address4.group_value (dec n) = n
  /\ Address6.leading_zero (dec n) = false.
Proof.
  intros Hn. pose proof bytes_checked as H.
  rewrite forallb_forall in H. specialize (H n (below_In 256 n ltac:(lia))).
  unfold byte_text_ok in H.
  apply andb_true_iff in H as [[H1 H2]%andb_true_iff H3].
  apply negb_true_iff in H3. repeat split; [assumption | lia | assumption].
Qed.

Lemma hex_group (n : Z) :
  0 <= n < 65536 -> Address6.parse_group (hex n) = Some n.
Proof.
  intros Hn. pose proof groups_checked as H.
  rewrite forallb_forall in H. specialize (H n (below_In 65536 n ltac:(lia))).
  unfold group_text_ok in H.
  destruct (Address6.parse_group (hex n)) as [v|]; [|discriminate].
  f_equal. lia.
Qed.

Lemma parse_group_hex (g : string) (v : Z) :
  Address6.parse_group g = Some v ->
  all_chars is_hex g = true /\ g <> EmptyString.
Proof.
  unfold Address6.parse_group.
  destruct (all_chars is_hex g) eqn:Hall; [|discriminate]. cbn [andb].
  destruct g; [discriminate|]. intros _. split; [reflexivity | discriminate].
Qed.

Lemma is_hex_group_like (g : string) :
  all_chars is_hex g = true -> g <> EmptyString -> group_like g.
Proof.
  intros Hall Hne. split; [exact Hne|].
  apply (all_chars_not_includes is_hex); [reflexivity | exact Hall].
Qed.

Lemma group_ok_digits (g : string) :
  Address4.group_ok g = true -> all_chars is_digit g = true /\ g <> EmptyString.
Proof.
  unfold Address4.group_ok. intros [[[H1 H2]%andb_true_iff _]%andb_true_iff _]%andb_true_iff.
  split; [exact H1|]. destruct g; [discriminate | discriminate].
Qed.

Lemma digit_val_range (c : ascii) (d : Z) : digit_val c = Some d -> 0 <= d < 10.
Proof.
  unfold digit_val, is_digit.
  destruct (48 <=? code c) eqn:H1; [|discriminate].
  destruct (code c <=? 57) eqn:H2; [|discriminate].
  intros [= <-]. lia.
Qed.

Lemma hex_val_range (c : ascii) (d : Z) : hex_val c = Some d -> 0 <= d < 16.
Proof.
  unfold hex_val, is_digit.
  destruct (48 <=? code c) eqn:H1, (code c <=? 57) eqn:H2; cbn [andb];
    try (intros [= <-]; lia);
    destruct (97 <=? code c) eqn:H3, (code c <=? 102) eqn:H4; cbn [andb];
    try (intros [= <-]; lia);
    destruct (65 <=? code c) eqn:H5, (code c <=? 70) eqn:H6; cbn [andb];
    try (intros [= <-]; lia); discriminate.
Qed.

Lemma digits_prefix_bounds (val : ascii -> option Z) (radix : Z) :
  1 <= radix ->
  (forall c d, val c = Some d -> 0 <= d < radix) ->
  forall (s : string) (a : Z), 0 <= a ->
  exists v, digits_prefix val radix s (Some a) = Some v
            /\ a <= v < (a + 1) * radix ^ Z.of_nat (String.length s).
Proof.
  intros Hr Hval. induction s as [|c s IH]; intros a Ha.
  - exists a. split; [reflexivity|]. cbn. lia.
  - cbn [digits_prefix String.length].
    rewrite Nat2Z.inj_succ, Z.pow_succ_r by lia.
    assert (0 < radix ^ Z.of_nat (String.length s)) by (apply Z.pow_pos_nonneg; lia).
    destruct (val c) as [d|] eqn:Hc.
    + pose proof (Hval _ _ Hc) as Hd.
      destruct (IH (a * radix + d) ltac:(nia)) as (v & Hv & Hlo & Hhi).
      exists v. split; [exact Hv|]. split; nia.
    + exists a. split; [reflexivity|]. split; nia.
Qed.

Lemma parse_group_range (g : string) (v : Z) :
  Address6.parse_group g = Some v -> 0 <= v < 65536.
Proof.
  unfold Address6.parse_group.
  destruct (all_chars is_hex g) eqn:Hall; [|discriminate]. cbn [andb].
  destruct g as [|c g]; [discriminate|]. cbn [String.length].
  destruct (S (String.length g) <=? 4)%nat eqn:Hlen; [|discriminate].
  cbn [andb]. apply Nat.leb_le in Hlen.
  unfold parseInt16. cbn [digits_prefix].
  destruct (hex_val c) as [d|] eqn:Hc.
  - pose proof (hex_val_range _ _ Hc) as Hd.
    destruct (digits_prefix_bounds hex_val 16 ltac:(lia) hex_val_range g d ltac:(lia))
      as (v' & -> & Hlo & Hhi).
    intros [= <-].
    assert (16 ^ Z.of_nat (String.length g) <= 4096).
    { change 4096 with (16 ^ 3). apply Z.pow_le_mono_r; lia. }
    nia.
  - discriminate.
Qed.

Lemma group_value_range (g : string) :
  Address4.group_ok g = true -> 0 <= Address4.group_value g <= 255.
Proof.
  unfold Address4.group_ok. intros [_ Hhi%Z.leb_le]%andb_true_iff.
  split; [|exact Hhi]. unfold Address4.group_value, parseInt10.
  destruct g as [|c g]; [cbn; lia|]. cbn [digits_prefix].
  destruct (digit_val c) as [d|] eqn:Hc; [|cbn; lia].
  pose proof (digit_val_range _ _ Hc) as Hd.
  destruct (digits_prefix_bounds digit_val 10 ltac:(lia) digit_val_range g d ltac:(lia))
    as (v' & -> & Hlo & _).
  cbn. lia.
Qed.

End Numerals.

(** ** IPv4 text *)

Section IPv4Facts.

Import Str.

Lemma dec_byte_digits (n : Z) : byte n -> all_chars is_digit (dec n) = true.
Proof. intros Hn. destruct (dec_byte n Hn) as (H & _). apply group_ok_digits, H. Qed.

Lemma quad_chars (b0 b1 b2 b3 : Z) :
  byte b0 -> byte b1 -> byte b2 -> byte b3 ->
  all_chars (fun c => is_digit c || Ascii.eqb c ".") (quad b0 b1 b2 b3) = true.
Proof.
  intros H0 H1 H2 H3. apply all_chars_join; [reflexivity|].
  repeat constructor;
    (eapply all_chars_weaken; [|apply dec_byte_digits; assumption]);
    intros c ->; reflexivity.
Qed.

Lemma quad_split (b0 b1 b2 b3 : Z) :
  byte b0 -> byte b1 -> byte b2 -> byte b3 ->
  split "." (quad b0 b1 b2 b3) = [dec b0; dec b1; dec b2; dec b3].
Proof.
  intros H0 H1 H2 H3. apply split_join; [discriminate|].
  repeat constructor;
    (apply (all_chars_not_includes is_digit); [reflexivity|]);
    apply dec_byte_digits; assumption.
Qed.

Lemma quad_is_address (b0 b1 b2 b3 : Z) :
  byte b0 -> byte b1 -> byte b2 -> byte b3 ->
  Address4.is_address (quad b0 b1 b2 b3) = true.
Proof.
  intros H0 H1 H2 H3. unfold Address4.is_address.
  rewrite quad_split by assumption. cbn [length forallb Nat.eqb].
  destruct (dec_byte b0 H0) as (-> & _), (dec_byte b1 H1) as (-> & _),
    (dec_byte b2 H2) as (-> & _), (dec_byte b3 H3) as (-> & _).
  reflexivity.
Qed.

Lemma subnet_suffix_absent (n : nat) (s : string) :
  includes "/" s = false -> subnet_suffix n s = None.
Proof. intros H. unfold subnet_suffix. rewrite cut_last_absent by exact H. reflexivity. Qed.

(** The constructor on a canonical dotted quad. *)
Lemma new4_quad (b0 b1 b2 b3 : Z) :
  byte b0 -> byte b1 -> byte b2 -> byte b3 ->
  Address4.new (quad b0 b1 b2 b3)
  = Ok (Address4.mk (quad b0 b1 b2 b3) [dec b0; dec b1; dec b2; dec b3] 32).
Proof.
  intros H0 H1 H2 H3. unfold Address4.new.
  rewrite subnet_suffix_absent.
  2:{ apply (all_chars_not_includes (fun c => is_digit c || Ascii.eqb c "."));
      [reflexivity | apply quad_chars; assumption]. }
  cbn [mbind result_bind]. rewrite quad_is_address, quad_split by assumption.
  reflexivity.
Qed.

(** What the constructor accepts. *)
Lemma new4_inv (s : string) (a : Address4.t) :
  Address4.new s = Ok a ->
  exists g0 g1 g2 g3,
    Address4.parsedAddress a = [g0; g1; g2; g3]
    /\ Address4.group_ok g0 = true /\ Address4.group_ok g1 = true
    /\ Address4.group_ok g2 = true /\ Address4.group_ok g3 = true.
Proof.
  unfold Address4.new.
  destruct (match subnet_suffix 2 s with
            | Some (a0, digits) => _ | None => _ end) as [[addr m]|e];
    cbn [mbind result_bind]; [|discriminate].
  destruct (Address4.is_address addr) eqn:His; [|discriminate].
  intros [= <-]. cbn [Address4.parsedAddress].
  unfold Address4.is_address in His.
  apply andb_true_iff in His as [Hlen Hall].
  destruct (split "." addr) as [|g0 [|g1 [|g2 [|g3 [|g4 l]]]]]; try discriminate.
  cbn [forallb] in Hall.
  apply andb_true_iff in Hall as [? [? [? [? _]%andb_true_iff]%andb_true_iff]%andb_true_iff].
  eauto 10.
Qed.

Lemma forallb_group_ok_digits (l : list string) :
  forallb Address4.group_ok l = true -> forallb (all_chars is_digit) l = true.
Proof.
  induction l as [|g l IH]; [reflexivity|]. cbn [forallb].
  intros [Hg Hl]%andb_true_iff.
  destruct (group_ok_digits g Hg) as [-> _]. exact (IH Hl).
Qed.

Lemma new4_no_colon (s : string) (a : Address4.t) :
  Address4.new s = Ok a -> includes ":" s = false.
Proof.
  unfold Address4.new, subnet_suffix.
  assert (Haddr : forall addr, Address4.is_address addr = true ->
                               includes ":" addr = false).
  { intros addr [_ Hall]%andb_true_iff.
    apply (all_chars_not_includes (fun c => is_digit c || Ascii.eqb c "."));
      [reflexivity|].
    apply all_chars_split, forallb_group_ok_digits, Hall. }
  destruct (cut_last "/" s) as [[before digits]|] eqn:Hcut.
  - destruct (all_chars is_digit digits) eqn:Hd; cbn [andb].
    + destruct ((1 <=? String.length digits)%nat && (String.length digits <=? 2)%nat).
      * destruct (Address4.BITS <? Address4.group_value digits);
          cbn [mbind result_bind]; [discriminate|].
        destruct (Address4.is_address before) eqn:His; [|discriminate].
        intros _. rewrite (cut_last_app _ _ _ _ Hcut), includes_app.
        cbn [includes]. rewrite (Haddr _ His).
        rewrite (all_chars_not_includes is_digit ":" digits); [reflexivity..|exact Hd].
      * cbn [mbind result_bind].
        destruct (Address4.is_address s) eqn:His; [|discriminate].
        intros _. apply Haddr, His.
    + cbn [mbind result_bind].
      destruct (Address4.is_address s) eqn:His; [|discriminate].
      intros _. apply Haddr, His.
  - cbn [mbind result_bind].
    destruct (Address4.is_address s) eqn:His; [|discriminate].
    intros _. apply Haddr, His.
Qed.

(** Normalising and reading again gives the same four values, with the
    full mask. *)
Lemma renew4 (s : string) (a : Address4.t) :
  Address4.new s = Ok a ->
  exists a',
    Address4.new (Address4.correctForm a) = Ok a'
    /\ Address4.subnetMask a' = 32
    /\ Address4.bigInteger a' = Address4.bigInteger a
    /\ Address4.correctForm a' = Address4.correctForm a
    /\ 0 <= Address4.bigInteger a < 4294967296.
Proof.
  intros Hnew.
  destruct (new4_inv s a Hnew) as (g0 & g1 & g2 & g3 & Hp & H0 & H1 & H2 & H3).
  apply group_value_range in H0, H1, H2, H3.
  unfold Address4.correctForm, Address4.bigInteger. rewrite Hp.
  cbn [map fold_left].
  set (v0 := Address4.group_value g0) in *. set (v1 := Address4.group_value g1) in *.
  set (v2 := Address4.group_value g2) in *. set (v3 := Address4.group_value g3) in *.
  change (join "." [dec v0; dec v1; dec v2; dec v3]) with (quad v0 v1 v2 v3).
  assert (B0 : byte v0) by (unfold byte; lia). assert (B1 : byte v1) by (unfold byte; lia).
  assert (B2 : byte v2) by (unfold byte; lia). assert (B3 : byte v3) by (unfold byte; lia).
  eexists. split; [apply new4_quad; assumption|].
  cbn [Address4.subnetMask Address4.parsedAddress map fold_left].
  destruct (dec_byte v0 B0) as (_ & -> & _), (dec_byte v1 B1) as (_ & -> & _),
    (dec_byte v2 B2) as (_ & -> & _), (dec_byte v3 B3) as (_ & -> & _).
  repeat split; lia.
Qed.

Lemma dotted_quad (n : Z) :
  Address4.dotted n
  = quad (n / 16777216 mod 256) (n / 65536 mod 256) (n / 256 mod 256) (n mod 256).
Proof. reflexivity. Qed.

Lemma mod_byte (n : Z) : byte (n mod 256).
Proof. unfold byte. apply Z.mod_pos_bound. lia. Qed.

End IPv4Facts.

(** ** IPv6 text *)

Section IPv6Facts.

Import Str.

Lemma zero_runs_pattern (g : list Z) (i z : nat) :
  Address6.zero_runs (zero_pattern g) i z = Address6.zero_runs g i z.
Proof.
  revert i z. induction g as [|v g IH]; intros i z; [reflexivity|].
  cbn [zero_pattern map Address6.zero_runs]. fold (zero_pattern g).
  destruct (v =? 0) eqn:Hv; cbn [Z.eqb]; rewrite IH; reflexivity.
Qed.

Lemma pattern_In (n : nat) (g : list Z) :
  length g = n -> In (zero_pattern g) (patterns n).
Proof.
  revert g. induction n as [|n IH]; intros [|v g] Hlen; try discriminate.
  - left. reflexivity.
  - cbn [patterns zero_pattern map]. fold (zero_pattern g).
    apply in_flat_map. exists (zero_pattern g).
    split; [apply IH; injection Hlen; auto|].
    destruct (v =? 0); [left | right; left]; reflexivity.
Qed.

Lemma patterns_checked : forallb run_ok (patterns 8) = true.
Proof. vm_compute. reflexivity. Qed.

Lemma zero_pattern_zeros (l : list Z) :
  forallb (Z.eqb 0) (zero_pattern l) = true -> l = repeat 0 (length l).
Proof.
  induction l as [|v l IH]; [reflexivity|].
  cbn [zero_pattern map forallb length repeat]. fold (zero_pattern l).
  destruct (Z.eqb_spec v 0) as [->|]; [|discriminate].
  intros H. rewrite <- IH by exact H. reflexivity.
Qed.

(** The shape of the elided run. *)
Lemma run_shape (g : list Z) (n0 n1 : nat) :
  length g = 8%nat ->
  Address6.longest_run (Address6.zero_runs g 0 0) = Some (n0, n1) ->
  (n0 < n1 < 8)%nat
  /\ g = (take n0 g ++ repeat 0 (S n1 - n0) ++ drop (S n1) g)%list.
Proof.
  intros Hlen Hrun. pose proof patterns_checked as H.
  rewrite forallb_forall in H. specialize (H _ (pattern_In 8 g Hlen)).
  unfold run_ok in H. rewrite zero_runs_pattern, Hrun in H.
  apply andb_true_iff in H as [[H0%Nat.ltb_lt H1%Nat.ltb_lt]%andb_true_iff Hz].
  split; [lia|].
  unfold zero_pattern in Hz. rewrite List.skipn_map, List.firstn_map in Hz.
  apply zero_pattern_zeros in Hz.
  rewrite length_take, length_drop in Hz.
  replace ((S n1 - n0) `min` (length g - n0))%nat with (S n1 - n0)%nat in Hz by lia.
  rewrite <- Hz.
  rewrite <- (take_drop n0 g) at 1. f_equal.
  rewrite <- (take_drop (S n1 - n0) (drop n0 g)) at 1. f_equal.
  rewrite drop_drop. f_equal. lia.
Qed.

Lemma hex_group_like (v : Z) : group16 v -> group_like (hex v).
Proof.
  intros Hv. pose proof (hex_group v Hv) as H.
  apply parse_group_hex in H as [H1 H2]. apply is_hex_group_like; assumption.
Qed.

Lemma hex_chars (v : Z) :
  group16 v -> all_chars (fun c => is_hex c || Ascii.eqb c ":") (hex v) = true.
Proof.
  intros Hv. pose proof (hex_group v Hv) as H.
  apply parse_group_hex in H as [H1 _].
  eapply all_chars_weaken; [|exact H1]. intros c ->. reflexivity.
Qed.

Lemma hexes_group_like (g : list Z) :
  Forall group16 g -> Forall group_like (map hex g).
Proof. intros H. apply Forall_map. eapply Forall_impl; [exact H|]. apply hex_group_like. Qed.

Lemma hexes_chars (g : list Z) :
  Forall group16 g ->
  all_chars (fun c => is_hex c || Ascii.eqb c ":") (join ":" (map hex g)) = true.
Proof.
  intros H. apply all_chars_join; [reflexivity|].
  apply Forall_map. eapply Forall_impl; [exact H|]. apply hex_chars.
Qed.

Lemma hexes_parse (g : list Z) :
  Forall group16 g -> mapM Address6.parse_group (map hex g) = Some g.
Proof.
  intros H. apply mapM_Some. apply Forall2_fmap_l.
  apply Forall_Forall2_diag. eapply Forall_impl; [exact H|]. apply hex_group.
Qed.

Lemma half_groups_join (gs : list string) :
  Forall group_like gs -> Address6.half_groups (join ":" gs) = gs.
Proof.
  intros H. unfold Address6.half_groups. destruct gs as [|g gs]; [reflexivity|].
  pose proof H as [Hg _]%Forall_cons.
  destruct (String.eqb_spec (join ":" (g :: gs)) EmptyString) as [E|_].
  - exfalso. exact (join_group_not_empty g gs Hg E).
  - apply split_join; [discriminate|].
    eapply Forall_impl; [exact H|]. intros x [_ Hx]. exact Hx.
Qed.

Lemma not_address_nodot (x : string) :
  includes "." x = false -> Address4.is_address x = false.
Proof. intros H. unfold Address4.is_address. rewrite split_nosep by exact H. reflexivity. Qed.

(** A text of hexadecimal digits and colons has no prefix length, no zone
    and no dotted quad. *)
Section Plain.

Variable t : string.
Hypothesis Hchars : all_chars (fun c => is_hex c || Ascii.eqb c ":") t = true.

Lemma plain_no (c : ascii) :
  (is_hex c || Ascii.eqb c ":") = false -> includes c t = false.
Proof. intros Hc. eapply all_chars_not_includes; [|exact Hchars]. exact Hc. Qed.

Lemma plain_strip_subnet : Address6.strip_subnet t = None.
Proof.
  unfold Address6.strip_subnet.
  rewrite subnet_suffix_absent by (apply plain_no; reflexivity).
  rewrite cut_at_absent by (apply plain_no; reflexivity).
  rewrite subnet_suffix_absent by (apply plain_no; reflexivity).
  reflexivity.
Qed.

Lemma plain_parse4in6 : Address6.parse4in6 t = Ok (t, false).
Proof.
  unfold Address6.parse4in6. rewrite not_address_nodot; [reflexivity|].
  apply (all_chars_not_includes (fun c => is_hex c || Ascii.eqb c ":")); [reflexivity|].
  apply (last_Forall (fun g => all_chars _ g = true)); [reflexivity|].
  apply split_all_chars, Hchars.
Qed.

(** The constructor, once the groups of the text are known. *)
Lemma plain_new (groups : list string) (values : list Z) :
  Address6.expand_elision t = Ok groups ->
  length groups = 8%nat ->
  mapM Address6.parse_group groups = Some values ->
  Address6.new t = Ok (Address6.mk t values 128 false EmptyString).
Proof.
  intros Hgroups Hlen Hvalues. unfold Address6.new.
  rewrite plain_strip_subnet, (plain_no "/") by reflexivity.
  cbn [mbind result_bind].
  rewrite cut_at_absent by (apply plain_no; reflexivity).
  unfold Address6.parse. rewrite plain_parse4in6. cbn [mbind result_bind].
  rewrite Hchars. cbn [negb]. rewrite Hgroups. cbn [mbind result_bind].
  rewrite Hlen. cbn [Address6.GROUPS Nat.eqb negb]. rewrite Hvalues.
  reflexivity.
Qed.

End Plain.

End IPv6Facts.

Section IPv6Roundtrip.

Import Str.

Lemma new6_wf (s : string) (a : Address6.t) : Address6.new s = Ok a -> wf6 a.
Proof.
  unfold Address6.new.
  destruct (match Address6.strip_subnet s with
            | Some (a0, digits) => _ | None => _ end) as [[addr m]|e];
    cbn [mbind result_bind]; [|discriminate].
  destruct (cut_at "%" addr) as [x zone].
  unfold Address6.parse.
  destruct (Address6.parse4in6 x) as [[x' is_v4]|e]; cbn [mbind result_bind]; [|discriminate].
  destruct (negb (all_chars _ x')); [discriminate|].
  destruct (Address6.expand_elision x') as [groups|e]; cbn [mbind result_bind]; [|discriminate].
  destruct (length groups =? Address6.GROUPS)%nat eqn:Hlen; cbn [negb]; [|discriminate].
  destruct (mapM Address6.parse_group groups) as [values|] eqn:Hv; [|discriminate].
  cbn [mbind result_bind]. intros [= <-]. unfold wf6. cbn [Address6.parsedAddress].
  apply mapM_Some in Hv. apply Nat.eqb_eq in Hlen. split.
  - rewrite <- (Forall2_length _ _ _ Hv). exact Hlen.
  - clear Hlen. induction Hv as [|g v gs vs Hg _ IH]; constructor; [|exact IH].
    exact (parse_group_range g v Hg).
Qed.

Lemma correctForm_chars (a : Address6.t) :
  wf6 a ->
  all_chars (fun c => is_hex c || Ascii.eqb c ":") (Address6.correctForm a) = true.
Proof.
  intros [Hlen Hg]. unfold Address6.correctForm.
  destruct (Address6.longest_run _) as [[n0 n1]|].
  - rewrite !all_chars_app, !hexes_chars; [reflexivity | |].
    + apply Forall_drop, Hg.
    + apply Forall_take, Hg.
  - apply hexes_chars, Hg.
Qed.

(** Reading the canonical text gives the groups back. *)
Lemma renew6 (a : Address6.t) :
  wf6 a ->
  Address6.new (Address6.correctForm a)
  = Ok (Address6.mk (Address6.correctForm a) (Address6.parsedAddress a) 128 false
          EmptyString).
Proof.
  intros Hwf. pose proof (correctForm_chars a Hwf) as Hchars.
  destruct Hwf as [Hlen Hg]. revert Hchars. unfold Address6.correctForm.
  set (g := Address6.parsedAddress a) in *.
  destruct (Address6.longest_run (Address6.zero_runs g 0 0)) as [[n0 n1]|] eqn:Hrun;
    intros Hchars.
  - destruct (run_shape g n0 n1 Hlen Hrun) as [Hn Hshape].
    set (pre := take n0 g) in *. set (post := drop (S n1) g) in *.
    assert (Hpre : Forall group16 pre) by (apply Forall_take, Hg).
    assert (Hpost : Forall group16 post) by (apply Forall_drop, Hg).
    assert (Hlpre : length pre = n0) by (unfold pre; rewrite length_take; lia).
    assert (Hlpost : length post = (7 - n1)%nat) by (unfold post; rewrite length_drop; lia).
    apply (plain_new _ Hchars (map hex g)).
    + unfold Address6.expand_elision. cbn [String.append].
      rewrite split_dcolon_join_elided by (apply hexes_group_like, Hpre).
      rewrite split_dcolon_join by (apply hexes_group_like, Hpost).
      rewrite !half_groups_join by (apply hexes_group_like; assumption).
      rewrite !length_map, Hlpre, Hlpost. unfold Address6.GROUPS.
      destruct (Z.leb_spec (Z.of_nat 8 - Z.of_nat (n0 + (7 - n1))) 0) as [|_]; [lia|].
      replace (Z.to_nat (Z.of_nat 8 - Z.of_nat (n0 + (7 - n1)))) with (S n1 - n0)%nat by lia.
      f_equal.
      transitivity (map hex (pre ++ repeat 0 (S n1 - n0) ++ post)%list);
        [|f_equal; symmetry; exact Hshape].
      rewrite !map_app. f_equal. f_equal.
      clear. induction (S n1 - n0)%nat as [|k IH]; [reflexivity|].
      cbn [repeat map]. rewrite <- IH. reflexivity.
    + rewrite length_map. exact Hlen.
    + apply hexes_parse, Hg.
  - apply (plain_new _ Hchars (map hex g)).
    + unfold Address6.expand_elision.
      rewrite split_dcolon_join by (apply hexes_group_like, Hg).
      f_equal. apply split_join.
      * destruct g; [discriminate Hlen | discriminate].
      * eapply Forall_impl; [apply hexes_group_like, Hg|]. intros x [_ Hx]. exact Hx.
    + rewrite length_map. exact Hlen.
    + apply hexes_parse, Hg.
Qed.

Lemma subnet_suffix_app (n : nat) (s before digits : string) :
  subnet_suffix n s = Some (before, digits) -> s = before +:+ String "/" digits.
Proof.
  unfold subnet_suffix. destruct (cut_last "/" s) as [[b d]|] eqn:Hcut; [|discriminate].
  destruct (all_chars is_digit d && _ && _); [|discriminate].
  intros [= <- <-]. exact (cut_last_app _ _ _ _ Hcut).
Qed.

Lemma strip_subnet_colon (s before digits : string) :
  includes ":" s = false ->
  Address6.strip_subnet s = Some (before, digits) -> includes ":" before = false.
Proof.
  intros Hs. unfold Address6.strip_subnet.
  destruct (subnet_suffix 3 s) as [[b d]|] eqn:H1.
  - intros [= <- <-]. apply subnet_suffix_app in H1.
    rewrite H1, includes_app in Hs. apply orb_false_iff in Hs as [Hb _]. exact Hb.
  - destruct (cut_at "%" s) as [m z] eqn:Hcz. apply cut_at_app in Hcz.
    destruct (subnet_suffix 3 m) as [[b d]|] eqn:H2; [|discriminate].
    intros [= <- <-]. apply subnet_suffix_app in H2.
    rewrite Hcz, H2, !includes_app in Hs. rewrite includes_app.
    apply orb_false_iff in Hs as [[Hb _]%orb_false_iff Hz].
    rewrite Hb, Hz. reflexivity.
Qed.

(** Without a colon, [parse] only succeeds through the dotted-quad rule. *)
Lemma parse_nocolon (x : string) (r : list Z * bool) :
  includes ":" x = false -> Address6.parse x = Ok r -> snd r = true.
Proof.
  intros Hx. unfold Address6.parse, Address6.parse4in6.
  destruct (Address4.is_address _).
  - destruct (Address4.new _) as [a4|e]; cbn [mbind result_bind]; [|discriminate].
    destruct (existsb _ _); cbn [mbind result_bind]; [discriminate|].
    destruct (negb _); [discriminate|].
    destruct (Address6.expand_elision _); cbn [mbind result_bind]; [|discriminate].
    destruct (negb _); [discriminate|].
    destruct (mapM _ _); [|discriminate]. intros [= <-]. reflexivity.
  - cbn [mbind result_bind]. destruct (negb _); [discriminate|].
    unfold Address6.expand_elision.
    rewrite split_dcolon_nocolon, split_nosep by exact Hx.
    cbn [mbind result_bind length Nat.eqb Address6.GROUPS negb]. discriminate.
Qed.

(** A text without a dotted quad that the constructor accepts has a colon. *)
Lemma new6_plain_colon (s : string) (a : Address6.t) :
  Address6.new s = Ok a -> Address6.v4 a = false -> includes ":" s = true.
Proof.
  intros Hnew Hv4. destruct (includes ":" s) eqn:Hs; [reflexivity|exfalso].
  revert Hnew. unfold Address6.new.
  assert (Hfin : forall addr m, includes ":" addr = false ->
            (let '(x, zone) := cut_at "%" addr in
             '(groups, is_v4) ← Address6.parse x;
             Ok (Address6.mk s groups m is_v4 zone)) = Ok a -> False).
  { intros addr m Haddr. destruct (cut_at "%" addr) as [x zone] eqn:Hcut.
    apply cut_at_app in Hcut. subst addr. rewrite includes_app in Haddr.
    apply orb_false_iff in Haddr as [Hx _].
    destruct (Address6.parse x) as [[groups is_v4]|e] eqn:Hp;
      cbn [mbind result_bind]; [|discriminate].
    apply (parse_nocolon x _ Hx) in Hp. cbn [snd] in Hp. subst is_v4.
    intros [= <-]. discriminate Hv4. }
  destruct (Address6.strip_subnet s) as [[before digits]|] eqn:Hstrip.
  - destruct (Address6.BITS <? _); cbn [mbind result_bind]; [discriminate|].
    apply Hfin. exact (strip_subnet_colon _ _ _ Hs Hstrip).
  - destruct (includes "/" s); cbn [mbind result_bind]; [discriminate|].
    apply Hfin, Hs.
Qed.

End IPv6Roundtrip.

(** ** Classification *)

Section Classification.

Import Str.

Lemma shiftr_interval (v b k : Z) :
  0 <= k -> b mod 2 ^ k = 0 ->
  (Z.shiftr v k =? Z.shiftr b k) = (b <=? v) && (v <? b + 2 ^ k).
Proof.
  intros Hk Hb. rewrite !Z.shiftr_div_pow2 by exact Hk.
  assert (Hm : 0 < 2 ^ k) by (apply Z.pow_pos_nonneg; lia).
  pose proof (Z.div_mod b (2 ^ k) ltac:(lia)) as Eb. rewrite Hb in Eb.
  pose proof (Z.div_mod v (2 ^ k) ltac:(lia)) as Ev.
  pose proof (Z.mod_pos_bound v (2 ^ k) Hm) as Hv.
  set (q := b / 2 ^ k) in *. set (p := v / 2 ^ k) in *. set (m := 2 ^ k) in *.
  destruct (Z.eqb_spec p q) as [->|Hne].
  - symmetry. apply andb_true_iff. split; [apply Z.leb_le | apply Z.ltb_lt]; lia.
  - symmetry. apply andb_false_iff.
    destruct (Z.lt_ge_cases p q); [left; apply Z.leb_gt | right; apply Z.ltb_ge]; nia.
Qed.

Lemma some_existsb {A B} (f : A -> result bool) (g : B -> bool)
    (l : list A) (l' : list B) :
  Forall2 (fun x y => f x = Ok (g y)) l l' -> some f l = Ok (existsb g l').
Proof.
  induction 1 as [|x y l l' Hxy _ IH]; [reflexivity|].
  cbn [some existsb]. rewrite Hxy. cbn [mbind result_bind].
  destruct (g y); [reflexivity | exact IH].
Qed.

Lemma in_range4 (addr : Address4.t) (range : string) (c : CIDRRange) :
  Address4.subnetMask addr = 32 ->
  range_agrees4 range c = true ->
  (r ← Address4.new range; Ok (Address4.isInSubnet addr r))
  = Ok (isInRange (V4 (Address4.bigInteger addr)) c).
Proof.
  intros Hmask. unfold range_agrees4.
  destruct (Address4.new range) as [r|]; [|discriminate].
  destruct c as [[b|b] p]; cbn [base prefix]; [|discriminate].
  intros H. repeat (apply andb_true_iff in H as [H ?]).
  cbn [mbind result_bind]. f_equal.
  unfold Address4.isInSubnet, Address4.mask, isInRange. cbn [base prefix].
  rewrite Hmask.
  replace (Address4.subnetMask r) with p by lia.
  replace (Address4.bigInteger r) with b by lia.
  destruct (Z.ltb_spec 32 p) as [|_]; [lia|].
  unfold Address4.BITS. apply shiftr_interval; lia.
Qed.

Lemma in_range6 (addr : Address6.t) (range : string) (c : CIDRRange) :
  Address6.subnetMask addr = 128 ->
  range_agrees6 range c = true ->
  (r ← Address6.new range; Ok (Address6.isInSubnet addr r))
  = Ok (isInRange (V6 (Address6.bigInteger addr)) c).
Proof.
  intros Hmask. unfold range_agrees6.
  destruct (Address6.new range) as [r|]; [|discriminate].
  destruct c as [[b|b] p]; cbn [base prefix]; [discriminate|].
  intros H. repeat (apply andb_true_iff in H as [H ?]).
  cbn [mbind result_bind]. f_equal.
  unfold Address6.isInSubnet, Address6.mask, isInRange. cbn [base prefix].
  rewrite Hmask.
  replace (Address6.subnetMask r) with p by lia.
  replace (Address6.bigInteger r) with b by lia.
  destruct (Z.ltb_spec 128 p) as [|_]; [lia|].
  unfold Address6.BITS. apply shiftr_interval; lia.
Qed.

Lemma ranges4_agree :
  Forall2 (fun range c => range_agrees4 range c = true)
    PRIVATE_IPV4_RANGES declared_ipv4_ranges.
Proof. repeat constructor. Qed.

Lemma ranges6_agree :
  Forall2 (fun range c => range_agrees6 range c = true)
    PRIVATE_IPV6_RANGES declared_ipv6_ranges.
Proof. repeat constructor. Qed.

Lemma some_ranges4 (addr : Address4.t) :
  Address4.subnetMask addr = 32 ->
  some (fun range => r ← Address4.new range; Ok (Address4.isInSubnet addr r))
       PRIVATE_IPV4_RANGES
  = Ok (existsb (isInRange (V4 (Address4.bigInteger addr))) declared_ipv4_ranges).
Proof.
  intros Hmask. apply some_existsb.
  eapply Forall2_impl; [exact ranges4_agree|].
  intros range c H. apply in_range4; assumption.
Qed.

Lemma some_ranges6 (addr : Address6.t) :
  Address6.subnetMask addr = 128 ->
  some (fun range => r ← Address6.new range; Ok (Address6.isInSubnet addr r))
       PRIVATE_IPV6_RANGES
  = Ok (existsb (isInRange (V6 (Address6.bigInteger addr))) declared_ipv6_ranges).
Proof.
  intros Hmask. apply some_existsb.
  eapply Forall2_impl; [exact ranges6_agree|].
  intros range c H. apply in_range6; assumption.
Qed.

(** *** [normalizeIP] on each kind of text *)

Lemma normalizeIP_v4 (s : string) (a : Address4.t) :
  Address4.new s = Ok a -> normalizeIP s = Ok (Address4.correctForm a).
Proof.
  intros H. unfold normalizeIP. rewrite (new4_no_colon s a H), H. reflexivity.
Qed.

Lemma normalizeIP_v6 (s : string) (a : Address6.t) :
  Address6.new s = Ok a -> Address6.v4 a = false ->
  normalizeIP s = Ok (Address6.correctForm a).
Proof.
  intros H Hv4. unfold normalizeIP.
  rewrite (new6_plain_colon s a H Hv4), H. cbn [mbind result_bind].
  unfold Address6.is4. rewrite Hv4. reflexivity.
Qed.

Lemma new4_dotted (n : Z) :
  Address4.new (Address4.dotted n)
  = Ok (Address4.mk (Address4.dotted n)
          [dec (n / 16777216 mod 256); dec (n / 65536 mod 256);
           dec (n / 256 mod 256); dec (n mod 256)] 32).
Proof. rewrite dotted_quad. apply new4_quad; apply mod_byte. Qed.

Lemma correctForm_dotted (n : Z) (a : Address4.t) :
  Address4.new (Address4.dotted n) = Ok a ->
  Address4.correctForm a = Address4.dotted n.
Proof.
  rewrite new4_dotted. intros [= <-].
  unfold Address4.correctForm. cbn [Address4.parsedAddress map].
  destruct (dec_byte _ (mod_byte (n / 16777216))) as (_ & -> & _),
    (dec_byte _ (mod_byte (n / 65536))) as (_ & -> & _),
    (dec_byte _ (mod_byte (n / 256))) as (_ & -> & _),
    (dec_byte _ (mod_byte n)) as (_ & -> & _).
  reflexivity.
Qed.

(** A text with a dotted quad is folded to the IPv4 address of its last
    32 bits. *)
Lemma normalizeIP_folded (s : string) (a : Address6.t) :
  includes ":" s = true -> Address6.new s = Ok a -> Address6.v4 a = true ->
  normalizeIP s = Ok (Address4.dotted (Address6.bigInteger a mod 4294967296)).
Proof.
  intros Hs H Hv4. unfold normalizeIP. rewrite Hs, H. cbn [mbind result_bind].
  unfold Address6.is4, Address6.to4. rewrite Hv4, new4_dotted.
  cbn [mbind result_bind Address4.address try_catch].
  rewrite new4_dotted. cbn [mbind result_bind try_catch]. f_equal.
  apply correctForm_dotted, new4_dotted.
Qed.


End Classification.

(** ** The hostname check *)

Section HostnameCheck.

Variable env : Env.

(** The check is one lookup followed by the classification of its answer;
    whatever fails inside is reported as [Invalid hostname]. *)
Lemma isPrivateHostname_run (hostname : string) (w : World) :
  isPrivateHostname env hostname w
  = (match dns_lookup env hostname with
     | Ok ip =>
         match classify ip with
         | Ok b => Returned b
         | Throw _ => Thrown (InvalidHostname hostname)
         end
     | Throw _ => Thrown (InvalidHostname hostname)
     end, emit (EvLookup hostname) w).
Proof.
  unfold isPrivateHostname, try_catch_async, lookup, classify.
  destruct (dns_lookup env hostname) as [ip|e]; run_async; [|reflexivity].
  destruct (normalizeIP (address ip)) as [n|e]; run_async; [|reflexivity].
  destruct (family ip =? 4).
  - destruct (Address4.new n) as [a|e]; run_async; [|reflexivity].
    destruct (String.eqb n AWS_IMDS_ENDPOINT); [reflexivity|].
    destruct (some _ PRIVATE_IPV4_RANGES); reflexivity.
  - destruct (Address6.new n) as [a|e]; run_async; [|reflexivity].
    destruct (some _ PRIVATE_IPV6_RANGES); reflexivity.
Qed.

Lemma metadata_in_range (v : Z) :
  (v =? 2852039166) = true ->
  existsb (isInRange (V4 v)) declared_ipv4_ranges = true.
Proof. intros ->%Z.eqb_eq. reflexivity. Qed.

(** On the text of an address, the classification is the specification's
    [isPrivate]. *)
Lemma classify_resolved (ip : LookupAddress) (a : IPAddress) :
  resolved_address ip = Some a -> classify ip = Ok (isPrivate a).
Proof.
  unfold resolved_address, classify.
  destruct (family ip =? 4) eqn:H4.
  - destruct (Address4.new (address ip)) as [a4|e] eqn:Hnew; [|discriminate].
    intros [= <-]. rewrite (normalizeIP_v4 _ _ Hnew). cbn [mbind result_bind].
    destruct (renew4 _ _ Hnew) as (a' & Hnew' & Hmask & Hbig & _ & _).
    rewrite Hnew'. cbn [mbind result_bind].
    unfold isPrivate. cbn [ranges_of_family same_address metadata_address ipv4].
    destruct (String.eqb_spec (Address4.correctForm a4) AWS_IMDS_ENDPOINT) as [E|_].
    + rewrite E in Hnew'. vm_compute in Hnew'. injection Hnew' as <-.
      rewrite <- Hbig. reflexivity.
    + rewrite (some_ranges4 a' Hmask), Hbig. f_equal.
      destruct (Address4.bigInteger a4 =? _) eqn:Hm; [|symmetry; apply orb_false_r].
      rewrite (metadata_in_range _ Hm). reflexivity.
  - destruct (family ip =? 6); [|discriminate].
    destruct (Address6.new (address ip)) as [a6|e] eqn:Hnew; [|discriminate].
    destruct (Address6.v4 a6) eqn:Hv4; [discriminate|].
    intros [= <-]. rewrite (normalizeIP_v6 _ _ Hnew Hv4). cbn [mbind result_bind].
    rewrite (renew6 a6 (new6_wf _ _ Hnew)). cbn [mbind result_bind].
    rewrite some_ranges6 by reflexivity.
    unfold isPrivate. cbn [ranges_of_family same_address metadata_address ipv4].
    rewrite orb_false_r. reflexivity.
Qed.

(** Every address has a text the classification applies to: its
    canonical one. *)
Lemma quad_resolves (b0 b1 b2 b3 : Z) :
  byte b0 -> byte b1 -> byte b2 -> byte b3 ->
  resolved_address (mkLookupAddress (quad b0 b1 b2 b3) 4) = Some (ipv4 b0 b1 b2 b3).
Proof.
  intros H0 H1 H2 H3. unfold resolved_address. cbn [family address].
  change (4 =? 4) with true. cbv iota. rewrite new4_quad by assumption.
  unfold Address4.bigInteger, ipv4. cbn [Address4.parsedAddress fold_left].
  destruct (dec_byte b0 H0) as (_ & -> & _), (dec_byte b1 H1) as (_ & -> & _),
    (dec_byte b2 H2) as (_ & -> & _), (dec_byte b3 H3) as (_ & -> & _).
  reflexivity.
Qed.

Lemma canonical_resolves (a : Address6.t) :
  wf6 a ->
  resolved_address (mkLookupAddress (Address6.correctForm a) 6)
  = Some (ipv6 (Address6.parsedAddress a)).
Proof.
  intros Hwf. unfold resolved_address. cbn [family address].
  change (6 =? 4) with false. change (6 =? 6) with true. cbv iota.
  rewrite (renew6 a Hwf). reflexivity.
Qed.

(** *** What validation does to the world *)

Lemma validateUrl_world (urlString : string) (w w' : World) (o : outcome URL) :
  validateUrl env urlString w = (o, w') ->
  timers w' = timers w /\ next_id w' = next_id w
  /\ (trace w' = trace w \/ exists h, trace w' = (trace w ++ [EvLookup h])%list)
  /\ o <> Pending.
Proof.
  unfold validateUrl, new_URL.
  destruct (url_parse env urlString) as [url|]; run_async;
    [|intros [= <- <-]; auto 10].
  destruct (negb (scheme_allowed _)); run_async; [intros [= <- <-]; auto 10|].
  destruct (negb (port_allowed _)); run_async; [intros [= <- <-]; auto 10|].
  destruct (negb (psl_isValid _ _)); run_async; [intros [= <- <-]; auto 10|].
  rewrite isPrivateHostname_run.
  destruct (dns_lookup env (hostname url)) as [ip|e];
    [destruct (classify ip) as [[|]|e]|];
    run_async; intros [= <- <-]; cbn [emit timers next_id trace];
    repeat split; eauto; discriminate.
Qed.

End HostnameCheck.

(** ** The guarded fetch *)

Section GuardedFetch.

Variable env : Env.

Lemma abort_timer_new (c : nat) (ts : list timer) (t : timer) :
  Forall (fun t' => match timer_cb t' with CbAbort c' => (c' < c)%nat end) ts ->
  timer_cb t = CbAbort c ->
  abort_timer c (ts ++ [t]) = Some t.
Proof.
  intros Hts Ht. induction Hts as [|t' ts Ht' _ IH]; cbn [abort_timer app].
  - rewrite Ht, Nat.eqb_refl. reflexivity.
  - destruct (timer_cb t') as [c']. destruct (Nat.eqb_spec c' c) as [->|_]; [lia|].
    exact IH.
Qed.

Lemma remove_timer_new (id : nat) (ts : list timer) (t : timer) :
  Forall (fun t' => (timer_id t' < id)%nat) ts -> timer_id t = id ->
  remove_timer id (ts ++ [t]) = ts.
Proof.
  intros Hts Ht. unfold remove_timer.
  induction Hts as [|t' ts Ht' _ IH]; cbn [app].
  - rewrite filter_cons_False by (intros H; apply H, Ht). reflexivity.
  - rewrite filter_cons_True by lia. rewrite IH. reflexivity.
Qed.

(** The run of [serverFetch] once validation has accepted the URL: the
    controller and the timer are created, the request is sent with the
    controller's signal, the timer fires or not, and the timer is cleared. *)
Lemma serverFetch_accepted (url : string + URL) (options : gmap string value)
    (w w1 : World) (u : URL) :
  wf_world w ->
  validateUrl env (toString url) w = (Returned u, w1) ->
  let c := next_id w in
  let id := S c in
  let init := <["signal" := VSignal c]> options in
  let delay := timeout_of options in
  serverFetch env url options w
  = (if fires_first env u init delay then Thrown AbortError
     else match transport env u init with
          | Some (_, Ok r) => Returned r
          | Some (_, Throw e) => Thrown e
          | None => Thrown AbortError
          end,
     {| trace := trace w1
                 ++ [EvNewAbortController c; EvSetTimeout id (CbAbort c) delay;
                     EvFetch u init]
                 ++ (if fires_first env u init delay
                     then [EvTimerFired id; EvAbort c] else [])
                 ++ [EvClearTimeout id];
        timers := timers w;
        next_id := S id |}).
Proof.
  intros Hwf Hval. cbv zeta.
  set (c := next_id w). set (init := <["signal" := VSignal c]> options).
  set (delay := timeout_of options).
  destruct (validateUrl_world env _ _ _ _ Hval) as (Htimers & Hnext & _ & _).
  unfold serverFetch. run_async. rewrite Hval.
  unfold new_AbortController, setTimeout, try_finally, fetch, clearTimeout, emit.
  run_async. cbn [trace timers next_id].
  rewrite Hnext, Htimers. fold c. fold init. fold delay.
  replace (init !! "signal") with (Some (VSignal c))
    by (symmetry; apply lookup_insert_eq).
  rewrite (abort_timer_new c (timers w) (mkTimer (S c) (CbAbort c) delay)); cycle 1.
  { eapply Forall_impl; [exact Hwf|]. intros t [_ Ht]. destruct (timer_cb t). exact Ht. }
  { reflexivity. }
  assert (Hrm : remove_timer (S c) (timers w ++ [mkTimer (S c) (CbAbort c) delay])
                = timers w).
  { apply remove_timer_new; [|reflexivity].
    eapply Forall_impl; [exact Hwf|]. intros t [Ht _]. unfold c. lia. }
  assert (Hrm' : remove_timer (S c) (timers w) = timers w).
  { unfold remove_timer. clear -Hwf. unfold wf_world in Hwf. fold c in Hwf.
    induction Hwf as [|t ts [Ht _] _ IH]; [reflexivity|].
    rewrite filter_cons_True by lia. rewrite IH. reflexivity. }
  unfold fires_first, fire. cbn [timer_delay timer_cb timer_id].
  destruct (transport env u init) as [[latency r]|].
  - destruct (delay_ms delay <? latency).
    + cbn [trace timers next_id]. rewrite Hrm, Hrm'.
      rewrite <- !app_assoc. reflexivity.
    + destruct r as [r|e]; run_async; cbn [trace timers next_id];
        rewrite Hrm, <- !app_assoc; reflexivity.
  - cbn [trace timers next_id]. rewrite Hrm, Hrm'.
    rewrite <- !app_assoc. reflexivity.
Qed.

(** The run of [serverFetch] when validation rejects: nothing more happens. *)
Lemma serverFetch_rejected (url : string + URL) (options : gmap string value)
    (w w' : World) (e : exn) :
  validateUrl env (toString url) w = (Thrown e, w') ->
  serverFetch env url options w = (Thrown e, w').
Proof. intros Hval. unfold serverFetch. run_async. rewrite Hval. reflexivity. Qed.

End GuardedFetch.

(** ** Dotted quads and the IPv6 constructor *)

Section Folding.

Import Str.

Variables b0 b1 b2 b3 : Z.
Hypothesis (H0 : byte b0) (H1 : byte b1) (H2 : byte b2) (H3 : byte b3).

Local Abbreviation D := (quad b0 b1 b2 b3).
Local Abbreviation G := (hex (b0 * 256 + b1) +:+ ":" +:+ hex (b2 * 256 + b3)).

Lemma quad_plain (c : ascii) :
  (is_digit c || Ascii.eqb c ".") = false -> includes c D = false.
Proof.
  intros Hc.
  apply (all_chars_not_includes (fun x => is_digit x || Ascii.eqb x "."));
    [exact Hc | apply quad_chars; assumption].
Qed.

Lemma quad_toGroup6 :
  Address4.toGroup6 (Address4.mk D [dec b0; dec b1; dec b2; dec b3] 32) = G.
Proof.
  unfold Address4.toGroup6. cbn [Address4.parsedAddress map].
  destruct (dec_byte b0 H0) as (_ & -> & _), (dec_byte b1 H1) as (_ & -> & _),
    (dec_byte b2 H2) as (_ & -> & _), (dec_byte b3 H3) as (_ & -> & _).
  reflexivity.
Qed.

Lemma quad_no_leading_zero :
  existsb Address6.leading_zero [dec b0; dec b1; dec b2; dec b3] = false.
Proof.
  cbn [existsb].
  destruct (dec_byte b0 H0) as (_ & _ & ->), (dec_byte b1 H1) as (_ & _ & ->),
    (dec_byte b2 H2) as (_ & _ & ->), (dec_byte b3 H3) as (_ & _ & ->).
  reflexivity.
Qed.

Lemma pair16 (x y : Z) : byte x -> byte y -> group16 (x * 256 + y).
Proof. unfold byte, group16. lia. Qed.

Lemma G_chars : all_chars (fun c => is_hex c || Ascii.eqb c ":") G = true.
Proof.
  rewrite !all_chars_app, !hex_chars by (apply pair16; assumption).
  reflexivity.
Qed.

(** [parse4in6] on a text whose last group is the dotted quad. *)
Lemma parse4in6_tail (front : list string) :
  Forall (fun g => includes ":" g = false) front ->
  Address6.parse4in6 (join ":" (front ++ [D]))
  = Ok (join ":" (front ++ [G]), true).
Proof.
  intros Hfront. unfold Address6.parse4in6.
  rewrite split_join; cycle 1.
  { destruct front; discriminate. }
  { apply Forall_app. split; [exact Hfront|]. repeat constructor.
    apply quad_plain. reflexivity. }
  rewrite last_last.
  rewrite (quad_is_address b0 b1 b2 b3 H0 H1 H2 H3).
  rewrite new4_quad by assumption. cbn [mbind result_bind Address4.parsedAddress].
  rewrite quad_no_leading_zero, removelast_last.
  rewrite quad_toGroup6. reflexivity.
Qed.

(** The IPv6 constructor rejects a bare dotted quad: it stands for two
    groups, not eight. *)
Lemma new6_quad : exists e, Address6.new D = Throw e.
Proof.
  unfold Address6.new.
  assert (Hstrip : Address6.strip_subnet D = None).
  { unfold Address6.strip_subnet.
    rewrite subnet_suffix_absent by (apply quad_plain; reflexivity).
    rewrite cut_at_absent by (apply quad_plain; reflexivity).
    rewrite subnet_suffix_absent by (apply quad_plain; reflexivity).
    reflexivity. }
  rewrite Hstrip, (quad_plain "/") by reflexivity. cbn [mbind result_bind].
  rewrite cut_at_absent by (apply quad_plain; reflexivity).
  unfold Address6.parse.
  pose proof (parse4in6_tail [] ltac:(constructor)) as Hp.
  cbn [app join] in Hp. rewrite Hp. cbn [mbind result_bind].
  rewrite G_chars. cbn [negb].
  unfold Address6.expand_elision.
  change G with (join ":" [hex (b0 * 256 + b1); hex (b2 * 256 + b3)]).
  rewrite split_dcolon_join
    by (repeat constructor; apply hex_group_like, pair16; assumption).
  rewrite split_join; cycle 1.
  { discriminate. }
  { repeat constructor; apply hex_group_like, pair16; assumption. }
  cbn [mbind result_bind length Nat.eqb Address6.GROUPS negb]. eauto.
Qed.

(** The IPv6 constructor on the IPv4-mapped text of the quad. *)
Lemma new6_mapped :
  Address6.new ("::ffff:" +:+ D)
  = Ok (Address6.mk ("::ffff:" +:+ D)
          [0; 0; 0; 0; 0; 65535; b0 * 256 + b1; b2 * 256 + b3] 128 true EmptyString).
Proof.
  assert (Hno : forall c,
            (is_digit c || Ascii.eqb c "." || Ascii.eqb c ":" || Ascii.eqb c "f") = false ->
            includes c ("::ffff:" +:+ D) = false).
  { intros c Hc. rewrite includes_app. apply orb_false_iff. split.
    - apply (all_chars_not_includes
               (fun x => is_digit x || Ascii.eqb x "." || Ascii.eqb x ":" || Ascii.eqb x "f"));
        [exact Hc | reflexivity].
    - apply quad_plain. apply orb_false_iff in Hc as [Hc _].
      apply orb_false_iff in Hc as [Hc _]. exact Hc. }
  unfold Address6.new.
  assert (Hstrip : Address6.strip_subnet ("::ffff:" +:+ D) = None).
  { unfold Address6.strip_subnet.
    rewrite subnet_suffix_absent by (apply Hno; reflexivity).
    rewrite cut_at_absent by (apply Hno; reflexivity).
    rewrite subnet_suffix_absent by (apply Hno; reflexivity).
    reflexivity. }
  rewrite Hstrip, (Hno "/"%char) by reflexivity. cbn [mbind result_bind].
  rewrite cut_at_absent by (apply Hno; reflexivity).
  unfold Address6.parse.
  pose proof (parse4in6_tail [EmptyString; EmptyString; "ffff"]
                ltac:(repeat constructor)) as Hp.
  change (join ":" ([EmptyString; EmptyString; "ffff"] ++ [D])) with ("::ffff:" +:+ D) in Hp.
  rewrite Hp. cbn [mbind result_bind].
  change (join ":" ([EmptyString; EmptyString; "ffff"] ++ [G])) with ("::ffff:" +:+ G).
  assert (Hg : Forall group_like ["ffff"; hex (b0 * 256 + b1); hex (b2 * 256 + b3)]).
  { repeat constructor; try (apply hex_group_like, pair16; assumption);
      try discriminate. }
  rewrite all_chars_app, G_chars.
  change (all_chars (fun c => is_hex c || Ascii.eqb c ":") "::ffff:") with true.
  cbn [negb andb].
  unfold Address6.expand_elision.
  change ("::ffff:" +:+ G)
    with (String ":" (String ":"
            (join ":" ["ffff"; hex (b0 * 256 + b1); hex (b2 * 256 + b3)]))).
  rewrite split_dcolon_2. change (Ascii.eqb ":" ":") with true. cbn [andb].
  rewrite split_dcolon_join by exact Hg.
  rewrite half_groups_join by exact Hg.
  change (Address6.half_groups EmptyString) with (@nil string).
  unfold Address6.GROUPS. cbn [length].
  change (Z.of_nat 8 - Z.of_nat (0 + 3) <=? 0) with false. cbv iota.
  change (Z.to_nat (Z.of_nat 8 - Z.of_nat (0 + 3))) with 5%nat.
  cbn [repeat app length Nat.eqb negb mbind result_bind].
  pose proof (hexes_parse [0; 0; 0; 0; 0; 65535; b0 * 256 + b1; b2 * 256 + b3]) as Hm.
  cbn [map] in Hm. change (hex 0) with "0" in Hm. change (hex 65535) with "ffff" in Hm.
  rewrite Hm; [reflexivity|].
  repeat constructor; try (apply pair16; assumption); unfold group16; lia.
Qed.

End Folding.

(** ** The validation pipeline *)

Section Validation.

Variable env : Env.

(** The outcome of validation, check by check. *)
Lemma validateUrl_run (urlString : string) (w : World) :
  validateUrl env urlString w
  = match url_parse env urlString with
    | None => (Thrown InvalidURL, w)
    | Some url =>
        if negb (scheme_allowed url) then (Thrown (InvalidScheme (protocol url)), w)
        else if negb (port_allowed (effective_port url))
        then (Thrown (InvalidPort (effective_port url)), w)
        else if negb (psl_isValid env (hostname url))
        then (Thrown (InvalidHostname (hostname url)), w)
        else
          (match dns_lookup env (hostname url) with
           | Ok ip =>
               match classify ip with
               | Ok true => Thrown PrivateNetworkDenied
               | Ok false => Returned url
               | Throw _ => Thrown (InvalidHostname (hostname url))
               end
           | Throw _ => Thrown (InvalidHostname (hostname url))
           end, emit (EvLookup (hostname url)) w)
    end.
Proof.
  unfold validateUrl, new_URL.
  destruct (url_parse env urlString) as [url|]; run_async; [|reflexivity].
  destruct (negb (scheme_allowed url)); run_async; [reflexivity|].
  destruct (negb (port_allowed _)); run_async; [reflexivity|].
  destruct (negb (psl_isValid _ _)); run_async; [reflexivity|].
  rewrite isPrivateHostname_run.
  destruct (dns_lookup env (hostname url)) as [ip|e];
    [destruct (classify ip) as [[|]|e]|]; reflexivity.
Qed.

Lemma validateUrl_returns (urlString : string) (w w1 : World) (u : URL) :
  validateUrl env urlString w = (Returned u, w1) -> url_parse env urlString = Some u.
Proof.
  rewrite validateUrl_run.
  destruct (url_parse env urlString) as [url|]; [|discriminate].
  destruct (negb (scheme_allowed url)); [discriminate|].
  destruct (negb (port_allowed _)); [discriminate|].
  destruct (negb (psl_isValid _ _)); [discriminate|].
  destruct (dns_lookup env (hostname url)) as [ip|e];
    [destruct (classify ip) as [[|]|e]|]; try discriminate.
  intros [= <- _]. reflexivity.
Qed.

Lemma errors_distinct (protocol hostname : string) (port : option Z) :
  NoDup [InvalidURL; InvalidScheme protocol; InvalidPort port;
         InvalidHostname hostname; PrivateNetworkDenied].
Proof.
  unfold InvalidURL, InvalidScheme, InvalidPort, InvalidHostname, PrivateNetworkDenied.
  repeat apply NoDup_cons_2; try apply NoDup_nil_2;
    intros H; repeat (apply elem_of_cons in H as [H|H]);
    try (apply elem_of_nil in H; exact H);
    cbn [String.append] in H; discriminate H.
Qed.

(** C1. A hostname that resolves to an address of a declared private or
    reserved range, IPv4 or IPv6, or to 169.254.169.254, is rejected with
    the private-network error; and the classification the hostname check
    computes is true exactly when the address lies in a range of its family
    or is that literal: it is the specification's [isPrivate]. *)
Theorem private_address_rejected (urlString : string) (url : URL)
    (ip : LookupAddress) (a : IPAddress) (w : World) :
  url_parse env urlString = Some url ->
  scheme_allowed url = true ->
  port_allowed (effective_port url) = true ->
  psl_isValid env (hostname url) = true ->
  dns_lookup env (hostname url) = Ok ip ->
  resolved_address ip = Some a ->
  isPrivateHostname env (hostname url) w
  = (Returned (isPrivate a), emit (EvLookup (hostname url)) w)
  /\ (isPrivate a = true ->
      validateUrl env urlString w
      = (Thrown PrivateNetworkDenied, emit (EvLookup (hostname url)) w)).
Proof.
  intros Hurl Hscheme Hport Hpsl Hdns Ha.
  pose proof (classify_resolved ip a Ha) as Hc. split.
  - rewrite isPrivateHostname_run, Hdns, Hc. reflexivity.
  - intros Hp. rewrite validateUrl_run, Hurl, Hscheme, Hport, Hpsl, Hdns, Hc, Hp.
    reflexivity.
Qed.

(** C3, as the program has it. The checks run in the order parse,
    scheme, port, public suffix, private network; the first that fails
    decides the outcome, whatever the later ones would say; and when the
    parse, the scheme, the port or the suffix fails, the world is as before:
    no resolution was attempted. The fifth check has three outcomes: the
    hostname is judged private, and the error is the private-network one;
    it is judged not private, and the URL is returned; or the check itself
    throws (the lookup fails, or its answer cannot be classified), and the
    error is then [Invalid hostname] for this hostname, which is the error
    of the fourth check. The five error values are distinct, but the fifth
    check has no error of its own on that path. *)
Theorem validation_order (urlString : string) (w : World) :
  (url_parse env urlString = None ->
   validateUrl env urlString w = (Thrown InvalidURL, w))
  /\ (forall url, url_parse env urlString = Some url ->
        (scheme_allowed url = false ->
         validateUrl env urlString w = (Thrown (InvalidScheme (protocol url)), w))
        /\ (scheme_allowed url = true ->
            port_allowed (effective_port url) = false ->
            validateUrl env urlString w
            = (Thrown (InvalidPort (effective_port url)), w))
        /\ (scheme_allowed url = true ->
            port_allowed (effective_port url) = true ->
            psl_isValid env (hostname url) = false ->
            validateUrl env urlString w
            = (Thrown (InvalidHostname (hostname url)), w))
        /\ (scheme_allowed url = true ->
            port_allowed (effective_port url) = true ->
            psl_isValid env (hostname url) = true ->
            (fst (isPrivateHostname env (hostname url) w) = Returned true ->
             validateUrl env urlString w
             = (Thrown PrivateNetworkDenied, emit (EvLookup (hostname url)) w))
            /\ (fst (isPrivateHostname env (hostname url) w) = Returned false ->
                validateUrl env urlString w
                = (Returned url, emit (EvLookup (hostname url)) w))
            /\ (forall e,
                  fst (isPrivateHostname env (hostname url) w) = Thrown e ->
                  e = InvalidHostname (hostname url)
                  /\ validateUrl env urlString w
                     = (Thrown (InvalidHostname (hostname url)),
                        emit (EvLookup (hostname url)) w))
            /\ fst (isPrivateHostname env (hostname url) w) <> Pending))
  /\ (forall protocol hostname port,
        NoDup [InvalidURL; InvalidScheme protocol; InvalidPort port;
               InvalidHostname hostname; PrivateNetworkDenied]).
Proof.
  split; [|split].
  - intros H. rewrite validateUrl_run, H. reflexivity.
  - intros url H. rewrite validateUrl_run, H.
    split; [|split; [|split]].
    + intros ->. reflexivity.
    + intros -> ->. reflexivity.
    + intros -> -> ->. reflexivity.
    + intros -> -> ->. rewrite isPrivateHostname_run. cbn [fst negb].
      destruct (dns_lookup env (hostname url)) as [ip|e];
        [destruct (classify ip) as [[|]|e]|];
        (split; [|split; [|split]]);
        try discriminate; try reflexivity;
        intros e' [= <-]; split; reflexivity.
  - intros. apply errors_distinct.
Qed.


Lemma drop_last_colon (scheme : string) : Str.drop_last (scheme +:+ ":") = scheme.
Proof.
  induction scheme as [|c s IH]; [reflexivity|].
  cbn [String.append Str.drop_last]. rewrite IH.
  destruct s; reflexivity.
Qed.

(** C6. For a URL that passes the scheme check, the port the program
    tests is the explicit port when there is one and otherwise 443 for
    https and 80 for http; validation stops with the port error exactly
    when that port is neither 80 nor 443; and https with the explicit port
    80 passes the port check. *)
Theorem port_check (urlString : string) (url : URL) (w : World) :
  url_parse env urlString = Some url ->
  (exists scheme, protocol url = scheme +:+ ":") ->
  scheme_allowed url = true ->
  effective_port url = spec_effective_port url
  /\ (validateUrl env urlString w = (Thrown (InvalidPort (effective_port url)), w)
      <-> effective_port url <> Some 80 /\ effective_port url <> Some 443)
  /\ (protocol url = "https:" -> port url = "80" ->
      effective_port url = Some 80
      /\ validateUrl env urlString w <> (Thrown (InvalidPort (effective_port url)), w)).
Proof.
  intros Hurl [scheme Hproto] Hscheme.
  assert (Heff : effective_port url = spec_effective_port url).
  { unfold effective_port, spec_effective_port.
    destruct (String.eqb (port url) EmptyString); [|reflexivity]. cbn [negb].
    unfold scheme_allowed, ALLOWED_SCHEMES in Hscheme.
    apply bool_decide_eq_true in Hscheme.
    rewrite Hproto, drop_last_colon in *.
    apply elem_of_union in Hscheme as [->%elem_of_singleton | ->%elem_of_singleton];
      reflexivity. }
  assert (Hallowed : port_allowed (effective_port url) = true
                     <-> effective_port url = Some 80 \/ effective_port url = Some 443).
  { unfold port_allowed, ALLOWED_PORTS. destruct (effective_port url) as [p|].
    - rewrite bool_decide_eq_true, elem_of_union, !elem_of_singleton.
      split; intros [H|H]; (left + right); congruence.
    - split; [discriminate | intros [H|H]; discriminate]. }
  assert (Hcheck : validateUrl env urlString w
                   = (Thrown (InvalidPort (effective_port url)), w)
                   <-> port_allowed (effective_port url) = false).
  { rewrite validateUrl_run, Hurl, Hscheme. cbn [negb].
    destruct (port_allowed (effective_port url)); cbn [negb]; [|tauto].
    split; [|discriminate]. unfold InvalidPort, InvalidHostname, PrivateNetworkDenied.
    destruct (negb (psl_isValid _ _)); [intros [= H]; discriminate H|].
    destruct (dns_lookup env (hostname url)) as [ip|e];
      [destruct (classify ip) as [[|]|e]|]; intros [= H]; discriminate H. }
  split; [exact Heff|]. split.
  - rewrite Hcheck. destruct (port_allowed (effective_port url)).
    + destruct (proj1 Hallowed eq_refl) as [H|H]; split; try discriminate; tauto.
    + split; [|reflexivity]. intros _.
      split; intros H; discriminate (proj2 Hallowed ltac:(auto)).
  - intros Hhttps H80.
    assert (E : effective_port url = Some 80).
    { unfold effective_port. rewrite H80. reflexivity. }
    split; [exact E|]. rewrite Hcheck, E. discriminate.
Qed.

End Validation.

(** ** Folding of IPv4-mapped addresses *)

Section Mapped.

Import Str.

Lemma bytes_extract (b0 b1 b2 b3 : Z) :
  byte b0 -> byte b1 -> byte b2 -> byte b3 ->
  let n := (b0 * 256 + b1) * 65536 + (b2 * 256 + b3) in
  n / 16777216 mod 256 = b0 /\ n / 65536 mod 256 = b1
  /\ n / 256 mod 256 = b2 /\ n mod 256 = b3.
Proof.
  intros H0 H1 H2 H3 n. unfold byte in *. subst n.
  set (n := (b0 * 256 + b1) * 65536 + (b2 * 256 + b3)).
  assert (E3 : n / 16777216 = b0)
    by (symmetry; apply (Z.div_unique_pos n 16777216 b0 (b1 * 65536 + b2 * 256 + b3));
        unfold n; lia).
  assert (E2 : n / 65536 = b0 * 256 + b1)
    by (symmetry; apply (Z.div_unique_pos n 65536 _ (b2 * 256 + b3)); unfold n; lia).
  assert (E1 : n / 256 = (b0 * 256 + b1) * 256 + b2)
    by (symmetry; apply (Z.div_unique_pos n 256 _ b3); unfold n; lia).
  rewrite E3, E2, E1. repeat split.
  - apply Z.mod_small. lia.
  - symmetry. apply (Z.mod_unique_pos _ 256 b0); lia.
  - symmetry. apply (Z.mod_unique_pos _ 256 (b0 * 256 + b1)); lia.
  - symmetry. apply (Z.mod_unique_pos n 256 ((b0 * 256 + b1) * 256 + b2)); unfold n; lia.
Qed.

(** The IPv4-mapped text of a quad is folded to the quad. *)
Lemma normalizeIP_mapped (b0 b1 b2 b3 : Z) :
  byte b0 -> byte b1 -> byte b2 -> byte b3 ->
  normalizeIP ("::ffff:" +:+ quad b0 b1 b2 b3) = Ok (quad b0 b1 b2 b3).
Proof.
  intros H0 H1 H2 H3.
  rewrite (normalizeIP_folded ("::ffff:" +:+ quad b0 b1 b2 b3) _ eq_refl
             (new6_mapped b0 b1 b2 b3 H0 H1 H2 H3) eq_refl).
  f_equal.
  assert (E : Address6.bigInteger
                (Address6.mk ("::ffff:" +:+ quad b0 b1 b2 b3)
                   [0; 0; 0; 0; 0; 65535; b0 * 256 + b1; b2 * 256 + b3] 128 true
                   EmptyString) mod 4294967296
              = (b0 * 256 + b1) * 65536 + (b2 * 256 + b3)).
  { unfold Address6.bigInteger. cbn [Address6.parsedAddress fold_left].
    symmetry. apply (Z.mod_unique_pos _ 4294967296 65535); unfold byte in *; lia. }
  rewrite E.
  rewrite dotted_quad.
  destruct (bytes_extract b0 b1 b2 b3 H0 H1 H2 H3) as (-> & -> & -> & ->).
  reflexivity.
Qed.

End Mapped.

Section MappedHostname.

Variable env : Env.

(** C2, on the program as it is. A hostname that resolves to the
    IPv4-mapped text of any IPv4 address, private or public, with family 6:
    the text is folded to the dotted quad, but the check then reads the
    quad with the IPv6 constructor, because it branches on the family of
    the answer; the constructor throws, and the hostname is reported as
    invalid instead of being tested against the IPv4 ranges. A URL with
    that hostname which passes the earlier checks is rejected with the
    invalid-hostname error, not the private-network one. *)
Theorem mapped_address_reported_invalid (host : string) (b0 b1 b2 b3 : Z)
    (w : World) :
  byte b0 -> byte b1 -> byte b2 -> byte b3 ->
  dns_lookup env host
  = Ok {| address := "::ffff:" +:+ quad b0 b1 b2 b3; family := 6 |} ->
  normalizeIP ("::ffff:" +:+ quad b0 b1 b2 b3) = Ok (quad b0 b1 b2 b3)
  /\ isPrivateHostname env host w
     = (Thrown (InvalidHostname host), emit (EvLookup host) w)
  /\ (forall urlString url,
        url_parse env urlString = Some url -> hostname url = host ->
        scheme_allowed url = true ->
        port_allowed (effective_port url) = true ->
        psl_isValid env host = true ->
        validateUrl env urlString w
        = (Thrown (InvalidHostname host), emit (EvLookup host) w))
  /\ InvalidHostname host <> PrivateNetworkDenied.
Proof.
  intros H0 H1 H2 H3 Hdns.
  pose proof (normalizeIP_mapped b0 b1 b2 b3 H0 H1 H2 H3) as Hn.
  assert (Hc : exists e, classify {| address := "::ffff:" +:+ quad b0 b1 b2 b3;
                                     family := 6 |} = Throw e).
  { unfold classify. cbn [address family].
    rewrite Hn. cbn [mbind result_bind]. change (6 =? 4) with false. cbv iota.
    destruct (new6_quad b0 b1 b2 b3 H0 H1 H2 H3) as [e ->]. eauto. }
  destruct Hc as [e Hc].
  split; [exact Hn|]. split; [|split].
  - rewrite isPrivateHostname_run, Hdns, Hc. reflexivity.
  - intros urlString url Hurl <- Hscheme Hport Hpsl.
    rewrite validateUrl_run, Hurl, Hscheme, Hport, Hpsl, Hdns, Hc. reflexivity.
  - unfold InvalidHostname, PrivateNetworkDenied. cbn [String.append]. discriminate.
Qed.

End MappedHostname.




Section HexMapped.

Import Str.


End HexMapped.

(** ** The entry point *)

Section EntryPoint.

Variable env : Env.

Lemma validateUrl_trace (urlString : string) (w w' : World) (o : outcome URL) :
  validateUrl env urlString w = (o, w') ->
  exists evs, trace w' = (trace w ++ evs)%list
              /\ forallb (fun ev => negb (is_fetch ev) && negb (is_timer_event ev)) evs = true.
Proof.
  intros H. destruct (validateUrl_world env _ _ _ _ H) as (_ & _ & [E|[h E]] & _).
  - exists []. rewrite app_nil_r. auto.
  - exists [EvLookup h]. auto.
Qed.

(** C5. When validation fails, [serverFetch] fails with the same error
    and the world validation left: no request was handed to the transport;
    and a request appears in the trace only when validation returned. *)
Theorem rejection_sends_nothing (url : string + URL)
    (options : gmap string value) (w : World) :
  (forall e w', validateUrl env (toString url) w = (Thrown e, w') ->
     serverFetch env url options w = (Thrown e, w')
     /\ exists evs, trace w' = (trace w ++ evs)%list
                    /\ existsb is_fetch evs = false)
  /\ (forall evs,
        trace (snd (serverFetch env url options w)) = (trace w ++ evs)%list ->
        existsb is_fetch evs = true ->
        exists u w1, validateUrl env (toString url) w = (Returned u, w1)).
Proof.
  assert (Hrej : forall e w', validateUrl env (toString url) w = (Thrown e, w') ->
            serverFetch env url options w = (Thrown e, w')
            /\ exists evs, trace w' = (trace w ++ evs)%list
                           /\ existsb is_fetch evs = false).
  { intros e w' Hval. split; [apply serverFetch_rejected, Hval|].
    destruct (validateUrl_world env _ _ _ _ Hval) as (_ & _ & [E|[h E]] & _).
    - exists []. rewrite app_nil_r. auto.
    - exists [EvLookup h]. auto. }
  split; [exact Hrej|].
  intros evs Htrace Hfetch.
  destruct (validateUrl env (toString url) w) as [[u|e|] w1] eqn:Hval.
  - eauto.
  - destruct (Hrej e w1 eq_refl) as (Hs & evs' & E & Hno).
    rewrite Hs in Htrace. cbn [snd] in Htrace. rewrite E in Htrace.
    apply app_inv_head in Htrace. subst evs'. congruence.
  - destruct (validateUrl_world env _ _ _ _ Hval) as (_ & _ & _ & Hp). congruence.
Qed.

(** C10. When validation fails, no controller and no timer is created:
    the armed timers and the next identifier are as before the call, and
    the call added no controller or timer event to the trace. *)
Theorem no_timer_on_rejection (url : string + URL)
    (options : gmap string value) (w w' : World) (e : exn) :
  validateUrl env (toString url) w = (Thrown e, w') ->
  timers (snd (serverFetch env url options w)) = timers w
  /\ next_id (snd (serverFetch env url options w)) = next_id w
  /\ exists evs,
       trace (snd (serverFetch env url options w)) = (trace w ++ evs)%list
       /\ existsb is_timer_event evs = false.
Proof.
  intros Hval. rewrite (serverFetch_rejected env _ _ _ _ _ Hval). cbn [snd].
  destruct (validateUrl_world env _ _ _ _ Hval) as (Ht & Hn & [E|[h E]] & _).
  - repeat split; [exact Ht | exact Hn|]. exists []. rewrite app_nil_r. auto.
  - repeat split; [exact Ht | exact Hn|]. exists [EvLookup h]. auto.
Qed.

(** C7. After a successful validation the call creates a controller,
    arms a timer of [options.timeout] milliseconds, 10000 when that is
    absent, whose callback aborts the controller, and sends the request
    with the controller's signal. If the timer is due before the transport
    settles, the timer fires, the controller is aborted and the call fails
    with the abort error; otherwise the call settles as the transport did.
    On every path the last thing the call does is to clear the timer, none
    of its timers stays armed, and the call settles. *)
Theorem timeout_armed_and_cleared (url : string + URL)
    (options : gmap string value) (w w1 : World) (u : URL) :
  wf_world w ->
  validateUrl env (toString url) w = (Returned u, w1) ->
  let c := next_id w in
  let id := S c in
  let init := <["signal" := VSignal c]> options in
  let delay := timeout_of options in
  let r := serverFetch env url options w in
  (exists rest,
     trace (snd r)
     = (trace w1
        ++ [EvNewAbortController c; EvSetTimeout id (CbAbort c) delay; EvFetch u init]
        ++ rest ++ [EvClearTimeout id])%list
     /\ (fires_first env u init delay = true ->
         fst r = Thrown AbortError /\ rest = [EvTimerFired id; EvAbort c])
     /\ (fires_first env u init delay = false ->
         rest = []
         /\ exists latency s, transport env u init = Some (latency, s)
                              /\ fst r = match s with
                                         | Ok resp => Returned resp
                                         | Throw e => Thrown e
                                         end))
  /\ (options !! "timeout" = None \/ options !! "timeout" = Some VUndefined ->
      delay = VNum 10000)
  /\ (forall n, options !! "timeout" = Some (VNum n) -> delay = VNum n)
  /\ timers (snd r) = timers w
  /\ fst r <> Pending.
Proof.
  intros Hwf Hval c id init delay r.
  pose proof (serverFetch_accepted env url options w w1 u Hwf Hval) as Hrun.
  cbv zeta in Hrun. fold c id init delay in Hrun. fold r in Hrun.
  split; [|split; [|split; [|split]]].
  - exists (if fires_first env u init delay then [EvTimerFired id; EvAbort c] else []).
    rewrite Hrun. cbn [fst snd trace]. split; [reflexivity|]. split.
    + intros ->. split; reflexivity.
    + intros Hf. rewrite Hf. split; [reflexivity|].
      unfold fires_first in Hf.
      destruct (transport env u init) as [[latency s]|]; [|discriminate].
      exists latency, s. split; [reflexivity|]. destruct s; reflexivity.
  - unfold delay, timeout_of. intros [-> | ->]; reflexivity.
  - unfold delay, timeout_of. intros n ->. reflexivity.
  - rewrite Hrun. reflexivity.
  - rewrite Hrun. cbn [fst].
    destruct (fires_first env u init delay); [discriminate|].
    destruct (transport env u init) as [[latency [resp|e]]|]; discriminate.
Qed.

(** C8. A successful validation returns the URL object that parsing
    produced; the transport is then called once, with that URL object and
    with the caller's options, each property as given except [signal],
    which is the signal of the controller the call has just created. *)
Theorem url_and_options_forwarded (url : string + URL)
    (options : gmap string value) (w w1 : World) (u : URL) :
  wf_world w ->
  validateUrl env (toString url) w = (Returned u, w1) ->
  let c := next_id w in
  let init := <["signal" := VSignal c]> options in
  url_parse env (toString url) = Some u
  /\ (exists before after,
        trace (snd (serverFetch env url options w))
        = (trace w ++ before ++ [EvFetch u init] ++ after)%list
        /\ existsb is_fetch before = false /\ existsb is_fetch after = false
        /\ EvNewAbortController c ∈ before)
  /\ (forall k, k <> "signal" -> init !! k = options !! k)
  /\ init !! "signal" = Some (VSignal c).
Proof.
  intros Hwf Hval c init.
  pose proof (serverFetch_accepted env url options w w1 u Hwf Hval) as Hrun.
  cbv zeta in Hrun. fold c init in Hrun.
  split; [exact (validateUrl_returns env _ _ _ _ Hval)|]. split; [|split].
  - destruct (validateUrl_trace _ _ _ _ Hval) as (evs & E & Hevs).
    exists (evs ++ [EvNewAbortController c;
                    EvSetTimeout (S c) (CbAbort c) (timeout_of options)])%list.
    exists ((if fires_first env u init (timeout_of options)
             then [EvTimerFired (S c); EvAbort c] else [])
            ++ [EvClearTimeout (S c)])%list.
    rewrite Hrun. cbn [snd trace]. rewrite E. repeat split.
    + rewrite <- !app_assoc. reflexivity.
    + rewrite existsb_app. cbn [existsb is_fetch]. rewrite orb_false_r.
      clear -Hevs. induction evs as [|ev evs IH]; [reflexivity|].
      cbn [forallb existsb] in *.
      apply andb_true_iff in Hevs as [[Hev _]%andb_true_iff Hevs].
      apply negb_true_iff in Hev. rewrite Hev. exact (IH Hevs).
    + destruct (fires_first env u init (timeout_of options)); reflexivity.
    + apply elem_of_app. right. apply elem_of_cons. left. reflexivity.
  - intros k Hk. unfold init. apply lookup_insert_ne. congruence.
  - unfold init. apply lookup_insert_eq.
Qed.

End EntryPoint.

(** ** The program on the small world *)

Example demo_public_host :
  fst (serverFetch demo_env (inl "https://example.com/") ∅ initial)
  = Returned (mkResponse 200 "ok").
Proof. vm_compute. reflexivity. Qed.

Example demo_link_local_host :
  fst (validateUrl demo_env "https://linklocal.example.com/" initial)
  = Thrown PrivateNetworkDenied.
Proof. vm_compute. reflexivity. Qed.

Example demo_isPrivate :
  map isPrivate [ipv4 10 1 2 3; ipv4 100 127 255 255; ipv4 100 128 0 0;
                 ipv4 169 254 169 254; ipv4 8 8 8 8;
                 ipv6 [65152; 0; 0; 0; 0; 0; 0; 1]; ipv6 [0; 0; 0; 0; 0; 0; 0; 1];
                 ipv6 [8193; 3512; 0; 0; 0; 0; 0; 1]]
  = [true; true; false; true; false; true; true; false].
Proof. vm_compute. reflexivity. Qed.

(** C1 at a hostname that resolves to 10.1.2.3. *)
Lemma private_address_rejected_witness :
  resolved_address (mkLookupAddress "10.1.2.3" 4) = Some (ipv4 10 1 2 3)
  /\ isPrivate (ipv4 10 1 2 3) = true
  /\ validateUrl demo_env "https://intranet.example.com/" initial
     = (Thrown PrivateNetworkDenied, emit (EvLookup "intranet.example.com") initial).
Proof.
  split; [vm_compute; reflexivity|]. split; [vm_compute; reflexivity|].
  apply (private_address_rejected demo_env "https://intranet.example.com/"
           (demo_url "https:" "intranet.example.com" "")
           (mkLookupAddress "10.1.2.3" 4) (ipv4 10 1 2 3) initial);
    vm_compute; reflexivity.
Defined.

(** C2 at a hostname that resolves to [::ffff:10.0.0.1]. *)
Lemma mapped_address_reported_invalid_witness :
  normalizeIP "::ffff:10.0.0.1" = Ok "10.0.0.1"
  /\ validateUrl demo_env "https://mapped.example.com/" initial
     = (Thrown (InvalidHostname "mapped.example.com"),
        emit (EvLookup "mapped.example.com") initial).
Proof.
  destruct (mapped_address_reported_invalid demo_env "mapped.example.com" 10 0 0 1
              initial ltac:(unfold byte; lia) ltac:(unfold byte; lia)
              ltac:(unfold byte; lia) ltac:(unfold byte; lia)
              ltac:(vm_compute; reflexivity)) as (Hn & _ & Hv & _).
  split; [exact Hn|].
  apply (Hv "https://mapped.example.com/" (demo_url "https:" "mapped.example.com" ""));
    vm_compute; reflexivity.
Defined.

Example mapped_url_rejected_as_invalid_hostname :
  validateUrl demo_env "https://mapped.example.com/" initial
  = (Thrown (Error "Invalid hostname: mapped.example.com"),
     emit (EvLookup "mapped.example.com") initial).
Proof. vm_compute. reflexivity. Qed.

(** C3 at one URL for each check, and for each outcome of the fifth. *)
Lemma validation_order_witness :
  validateUrl demo_env "not a url" initial = (Thrown InvalidURL, initial)
  /\ validateUrl demo_env "ftp://example.com/" initial
     = (Thrown (InvalidScheme "ftp:"), initial)
  /\ validateUrl demo_env "https://example.com:8443/" initial
     = (Thrown (InvalidPort (Some 8443)), initial)
  /\ validateUrl demo_env "https://localhost/" initial
     = (Thrown (InvalidHostname "localhost"), initial)
  /\ validateUrl demo_env "http://metadata.example.com/" initial
     = (Thrown PrivateNetworkDenied, emit (EvLookup "metadata.example.com") initial)
  /\ validateUrl demo_env "https://example.com/" initial
     = (Returned (demo_url "https:" "example.com" ""),
        emit (EvLookup "example.com") initial)
  /\ validateUrl demo_env "https://nowhere.example.com/" initial
     = (Thrown (InvalidHostname "nowhere.example.com"),
        emit (EvLookup "nowhere.example.com") initial).
Proof.
  split; [|split; [|split; [|split; [|split; [|split]]]]].
  - apply (proj1 (validation_order demo_env "not a url" initial)).
    vm_compute. reflexivity.
  - apply (proj1 (proj1 (proj2 (validation_order demo_env "ftp://example.com/" initial))
                    (demo_url "ftp:" "example.com" "") ltac:(vm_compute; reflexivity)));
      vm_compute; reflexivity.
  - apply (proj1 (proj2 (proj1 (proj2 (validation_order demo_env
                    "https://example.com:8443/" initial))
                    (demo_url "https:" "example.com" "8443")
                    ltac:(vm_compute; reflexivity))));
      vm_compute; reflexivity.
  - apply (proj1 (proj2 (proj2 (proj1 (proj2 (validation_order demo_env
                    "https://localhost/" initial))
                    (demo_url "https:" "localhost" "")
                    ltac:(vm_compute; reflexivity)))));
      vm_compute; reflexivity.
  - apply (proj1 (proj2 (proj2 (proj2 (proj1 (proj2 (validation_order demo_env
                    "http://metadata.example.com/" initial))
                    (demo_url "http:" "metadata.example.com" "")
                    ltac:(vm_compute; reflexivity))))
                    ltac:(vm_compute; reflexivity) ltac:(vm_compute; reflexivity)
                    ltac:(vm_compute; reflexivity)));
      vm_compute; reflexivity.
  - apply (proj1 (proj2 (proj2 (proj2 (proj2 (proj1 (proj2 (validation_order demo_env
                    "https://example.com/" initial))
                    (demo_url "https:" "example.com" "")
                    ltac:(vm_compute; reflexivity))))
                    ltac:(vm_compute; reflexivity) ltac:(vm_compute; reflexivity)
                    ltac:(vm_compute; reflexivity))));
      vm_compute; reflexivity.
  - apply (proj2 (proj1 (proj2 (proj2 (proj2 (proj2 (proj2 (proj1 (proj2
                    (validation_order demo_env "https://nowhere.example.com/" initial))
                    (demo_url "https:" "nowhere.example.com" "")
                    ltac:(vm_compute; reflexivity))))
                    ltac:(vm_compute; reflexivity) ltac:(vm_compute; reflexivity)
                    ltac:(vm_compute; reflexivity))))
                    (InvalidHostname "nowhere.example.com")
                    ltac:(vm_compute; reflexivity))).
Defined.

(** C3 as stated fails: the private-network check has no error of its
    own when it throws. A URL that passes the first four checks and whose
    hostname does not resolve is rejected with the error that the
    public-suffix check gives for the same hostname. *)
Lemma lookup_failure_reported_as_invalid_hostname :
  fst (validateUrl demo_env "https://nowhere.example.com/" initial)
  = Thrown (Error "Invalid hostname: nowhere.example.com")
  /\ fst (validateUrl demo_env "https://localhost/" initial)
     = Thrown (Error "Invalid hostname: localhost")
  /\ ~ (forall env urlString url w e,
          url_parse env urlString = Some url ->
          scheme_allowed url = true ->
          port_allowed (effective_port url) = true ->
          psl_isValid env (hostname url) = true ->
          fst (validateUrl env urlString w) = Thrown e ->
          e <> InvalidHostname (hostname url)).
Proof.
  split; [vm_compute; reflexivity|]. split; [vm_compute; reflexivity|].
  intros H.
  apply (H demo_env "https://nowhere.example.com/"
           (demo_url "https:" "nowhere.example.com" "") initial
           (InvalidHostname "nowhere.example.com"));
    vm_compute; reflexivity.
Qed.



(** C5 at a URL with a scheme that is not allowed. *)
Lemma rejection_sends_nothing_witness :
  serverFetch demo_env (inl "ftp://example.com/") ∅ initial
  = (Thrown (InvalidScheme "ftp:"), initial).
Proof.
  apply (proj1 (rejection_sends_nothing demo_env (inl "ftp://example.com/") ∅ initial)
           (InvalidScheme "ftp:") initial).
  vm_compute. reflexivity.
Defined.

(** C6 at [https://example.com:80/]. *)
Lemma port_check_witness :
  effective_port (demo_url "https:" "example.com" "80") = Some 80
  /\ validateUrl demo_env "https://example.com:80/" initial
     <> (Thrown (InvalidPort (Some 80)), initial).
Proof.
  apply (proj2 (proj2 (port_check demo_env "https://example.com:80/"
                         (demo_url "https:" "example.com" "80") initial
                         ltac:(vm_compute; reflexivity)
                         (ex_intro _ "https" eq_refl)
                         ltac:(vm_compute; reflexivity))));
    reflexivity.
Defined.

(** C7 with a timeout of 50 ms against a transport that answers after
    120 ms. *)
Lemma timeout_armed_and_cleared_witness :
  wf_world initial
  /\ serverFetch demo_env (inl "https://example.com/") {[ "timeout" := VNum 50 ]} initial
     = (Thrown AbortError,
        {| trace := [EvLookup "example.com"; EvNewAbortController 0;
                     EvSetTimeout 1 (CbAbort 0) (VNum 50);
                     EvFetch (demo_url "https:" "example.com" "")
                       (<["signal" := VSignal 0]> {[ "timeout" := VNum 50 ]});
                     EvTimerFired 1; EvAbort 0; EvClearTimeout 1];
           timers := []; next_id := 2 |}).
Proof.
  split; [constructor|].
  pose proof (timeout_armed_and_cleared demo_env (inl "https://example.com/")
                {[ "timeout" := VNum 50 ]} initial
                (emit (EvLookup "example.com") initial)
                (demo_url "https:" "example.com" "")
                ltac:(constructor) ltac:(vm_compute; reflexivity)) as H.
  cbv zeta in H. destruct H as ((rest & Htrace & Hfire & _) & _ & _ & Htimers & _).
  destruct (Hfire ltac:(vm_compute; reflexivity)) as [Hout ->].
  destruct (serverFetch demo_env _ _ initial) as [o [tr ts nid]] eqn:E.
  cbn [fst snd trace timers] in *. subst o ts. rewrite Htrace.
  f_equal. f_equal.
  apply (f_equal (fun r => next_id (snd r))) in E. cbn [snd next_id] in E.
  rewrite <- E. vm_compute. reflexivity.
Defined.

(** C8 with a method and a signal of the caller's own. *)
Lemma url_and_options_forwarded_witness :
  let options : gmap string value :=
    {[ "method" := VStr "POST"; "signal" := VSignal 7 ]} in
  let init := <["signal" := VSignal 0]> options in
  url_parse demo_env "https://example.com/" = Some (demo_url "https:" "example.com" "")
  /\ init !! "method" = Some (VStr "POST")
  /\ init !! "signal" = Some (VSignal 0).
Proof.
  intros options init.
  destruct (url_and_options_forwarded demo_env (inl "https://example.com/") options
              initial (emit (EvLookup "example.com") initial)
              (demo_url "https:" "example.com" "")
              ltac:(constructor) ltac:(vm_compute; reflexivity))
    as (Hurl & _ & Hkeep & Hsig).
  split; [exact Hurl|]. split; [|exact Hsig].
  transitivity (options !! "method");
    [apply (Hkeep "method"); discriminate | vm_compute; reflexivity].
Defined.


(** C10 at a URL with a port that is not allowed. *)
Lemma no_timer_on_rejection_witness :
  timers (snd (serverFetch demo_env (inl "https://example.com:8443/") ∅ initial)) = []
  /\ next_id (snd (serverFetch demo_env (inl "https://example.com:8443/") ∅ initial))
     = 0%nat.
Proof.
  destruct (no_timer_on_rejection demo_env (inl "https://example.com:8443/") ∅
              initial initial (InvalidPort (Some 8443))
              ltac:(vm_compute; reflexivity)) as (H1 & H2 & _).
  split; [exact H1 | exact H2].
Defined.

(** * Further properties of the program *)

(** ** Normal forms *)

Section NormalForms.

Import Str.




Lemma correctForm4_no_colon (s : string) (a : Address4.t) :
  Address4.new s = Ok a -> includes ":" (Address4.correctForm a) = false.
Proof.
  intros Hnew. destruct (renew4 s a Hnew) as (a' & Hre & _).
  exact (new4_no_colon _ _ Hre).
Qed.

Lemma correctForm6_colon (a : Address6.t) :
  wf6 a -> includes ":" (Address6.correctForm a) = true.
Proof.
  intros Hwf. apply (new6_plain_colon _ _ (renew6 a Hwf)). reflexivity.
Qed.



End NormalForms.

(** ** Texts that end in a dotted quad *)

Section DottedTail.

Import Str.

(** Without a colon the IPv6 grammar has nothing to accept: a dotted quad
    stands for two groups, anything else for one. *)
Lemma parse_nocolon_throws (x : string) :
  includes ":" x = false -> exists e, Address6.parse x = Throw e.
Proof.
  intros Hx. unfold Address6.parse, Address6.parse4in6.
  rewrite split_nosep by exact Hx. cbn [List.last removelast app join].
  destruct (Address4.is_address x) eqn:His.
  - destruct (Address4.new x) as [a4|e] eqn:Hnew; cbn [mbind result_bind]; [|eauto].
    destruct (existsb _ _); cbn [mbind result_bind]; [eauto|].
    destruct (negb _); [eauto|].
    destruct (new4_inv x a4 Hnew) as (g0 & g1 & g2 & g3 & Hp & H0 & H1 & H2 & H3).
    apply group_value_range in H0, H1, H2, H3.
    unfold Address4.toGroup6, Address6.expand_elision. rewrite Hp. cbn [map].
    set (h1 := hex (Address4.group_value g0 * 256 + Address4.group_value g1)).
    set (h2 := hex (Address4.group_value g2 * 256 + Address4.group_value g3)).
    assert (Hg : Forall group_like [h1; h2]).
    { repeat constructor; apply hex_group_like; unfold group16; lia. }
    change (h1 +:+ ":" +:+ h2) with (join ":" [h1; h2]).
    rewrite split_dcolon_join by exact Hg.
    rewrite split_join;
      [|discriminate | eapply Forall_impl; [exact Hg|]; intros g [_ Hc]; exact Hc].
    cbn [mbind result_bind length Nat.eqb Address6.GROUPS negb]. eauto.
  - cbn [mbind result_bind]. destruct (negb _); [eauto|].
    unfold Address6.expand_elision.
    rewrite split_dcolon_nocolon, split_nosep by exact Hx.
    cbn [mbind result_bind length Nat.eqb Address6.GROUPS negb]. eauto.
Qed.

(** Every text the IPv6 constructor accepts has a colon. *)
Lemma new6_colon (s : string) (a : Address6.t) :
  Address6.new s = Ok a -> includes ":" s = true.
Proof.
  intros Hnew. destruct (includes ":" s) eqn:Hs; [reflexivity|exfalso].
  revert Hnew. unfold Address6.new.
  assert (Hfin : forall addr m, includes ":" addr = false ->
            (let '(x, zone) := cut_at "%" addr in
             '(groups, is_v4) ← Address6.parse x;
             Ok (Address6.mk s groups m is_v4 zone)) = Ok a -> False).
  { intros addr m Haddr. destruct (cut_at "%" addr) as [x zone] eqn:Hcut.
    apply cut_at_app in Hcut. subst addr. rewrite includes_app in Haddr.
    apply orb_false_iff in Haddr as [Hx _].
    destruct (parse_nocolon_throws x Hx) as [e ->]. discriminate. }
  destruct (Address6.strip_subnet s) as [[before digits]|] eqn:Hstrip.
  - destruct (Address6.BITS <? _); cbn [mbind result_bind]; [discriminate|].
    apply Hfin. exact (strip_subnet_colon _ _ _ Hs Hstrip).
  - destruct (includes "/" s); cbn [mbind result_bind]; [discriminate|].
    apply Hfin, Hs.
Qed.

(** X6. An IPv6 text that ends in a dotted quad is normalised to that
    quad, whatever its first 96 bits are; and when such a text is the
    answer of the resolver, with a family other than 4, the hostname check
    throws the invalid-hostname error: it gives no verdict on the quad. *)
Theorem dotted_tail_folded (s : string) (a : Address6.t) :
  Address6.new s = Ok a ->
  Address6.is4 a = true ->
  normalizeIP s = Ok (Address4.dotted (Address6.bigInteger a mod 4294967296))
  /\ (forall env host fam w,
        dns_lookup env host = Ok {| address := s; family := fam |} ->
        (fam =? 4) = false ->
        isPrivateHostname env host w
        = (Thrown (InvalidHostname host), emit (EvLookup host) w)).
Proof.
  intros Hnew H4.
  pose proof (normalizeIP_folded s a (new6_colon s a Hnew) Hnew H4) as Hn.
  split; [exact Hn|].
  intros env host fam w Hdns Hfam.
  rewrite isPrivateHostname_run, Hdns. unfold classify. cbn [address family].
  rewrite Hn, Hfam. cbn [mbind result_bind].
  set (n := Address6.bigInteger a mod 4294967296). rewrite dotted_quad.
  destruct (new6_quad (n / 16777216 mod 256) (n / 65536 mod 256) (n / 256 mod 256)
              (n mod 256) (mod_byte _) (mod_byte _) (mod_byte _) (mod_byte _))
    as [e ->].
  reflexivity.
Qed.

End DottedTail.

(** ** Accepted URLs *)

Section Accepted.

Variable env : Env.

(** X2. The whole call on a public host: when the URL passes the parse,
    scheme, port and suffix checks and its hostname resolves to the text of
    an address that is not private, validation returns the URL after one
    lookup, and the call is that lookup followed by controller, timer,
    request and clearing of the timer; it settles as the transport does,
    unless the timer is due first. *)
Theorem public_host_is_fetched (src : string + URL) (url : URL)
    (ip : LookupAddress) (a : IPAddress) (options : gmap string value)
    (w : World) :
  wf_world w ->
  url_parse env (toString src) = Some url ->
  scheme_allowed url = true ->
  port_allowed (effective_port url) = true ->
  psl_isValid env (hostname url) = true ->
  dns_lookup env (hostname url) = Ok ip ->
  resolved_address ip = Some a ->
  isPrivate a = false ->
  let c := next_id w in
  let id := S c in
  let init := <["signal" := VSignal c]> options in
  let delay := timeout_of options in
  validateUrl env (toString src) w = (Returned url, emit (EvLookup (hostname url)) w)
  /\ serverFetch env src options w
     = (if fires_first env url init delay then Thrown AbortError
        else match transport env url init with
             | Some (_, Ok r) => Returned r
             | Some (_, Throw e) => Thrown e
             | None => Thrown AbortError
             end,
        {| trace := trace w
                    ++ [EvLookup (hostname url); EvNewAbortController c;
                        EvSetTimeout id (CbAbort c) delay; EvFetch url init]
                    ++ (if fires_first env url init delay
                        then [EvTimerFired id; EvAbort c] else [])
                    ++ [EvClearTimeout id];
           timers := timers w;
           next_id := S id |}).
Proof.
  intros Hwf Hurl Hscheme Hport Hpsl Hdns Ha Hpub. cbv zeta.
  assert (Hval : validateUrl env (toString src) w
                 = (Returned url, emit (EvLookup (hostname url)) w)).
  { rewrite validateUrl_run, Hurl, Hscheme, Hport, Hpsl, Hdns.
    rewrite (classify_resolved ip a Ha), Hpub. reflexivity. }
  split; [exact Hval|].
  rewrite (serverFetch_accepted env src options w _ url Hwf Hval).
  cbn [emit trace]. rewrite <- !app_assoc. reflexivity.
Qed.

(** X3. A [signal] among the caller's options has no effect at all: the
    call behaves as if it had not been given, so a caller cannot cancel a
    request through the options. *)
Theorem caller_signal_discarded (src : string + URL)
    (options : gmap string value) (s : value) (w : World) :
  serverFetch env src (<["signal" := s]> options) w = serverFetch env src options w.
Proof.
  unfold serverFetch.
  assert (Ht : timeout_of (<["signal" := s]> options) = timeout_of options).
  { unfold timeout_of. rewrite lookup_insert_ne by discriminate. reflexivity. }
  rewrite Ht.
  assert (Hi : forall c : nat,
            <["signal" := VSignal c]> (<["signal" := s]> options)
            = <["signal" := VSignal c]> options)
    by (intros c; apply insert_insert_eq).
  run_async.
  destruct (validateUrl env (toString src) w) as [[u|e|] w1]; [|reflexivity..].
  unfold new_AbortController. rewrite Hi. reflexivity.
Qed.

(** X4. The call keeps the world in order, whatever its outcome: it
    always settles, the trace only grows, identifiers only grow, and the
    armed timers are exactly those armed before, so no call leaves a timer
    behind and calls can follow one another. *)
Theorem serverFetch_keeps_world (src : string + URL)
    (options : gmap string value) (w : World) :
  wf_world w ->
  let r := serverFetch env src options w in
  fst r <> Pending
  /\ wf_world (snd r)
  /\ timers (snd r) = timers w
  /\ (next_id w <= next_id (snd r))%nat
  /\ exists evs, trace (snd r) = (trace w ++ evs)%list.
Proof.
  intros Hwf r. subst r.
  assert (Hmono : forall w', timers w' = timers w -> (next_id w <= next_id w')%nat ->
                             wf_world w').
  { intros w' Ht Hn. unfold wf_world in *. rewrite Ht.
    eapply Forall_impl; [exact Hwf|]. intros t [H1 H2].
    destruct (timer_cb t). split; lia. }
  destruct (validateUrl env (toString src) w) as [[u|e|] w1] eqn:Hval.
  - destruct (validateUrl_world env _ _ _ _ Hval) as (_ & _ & Htr & _).
    rewrite (serverFetch_accepted env src options w w1 u Hwf Hval).
    cbn [fst snd timers next_id trace]. split; [|split; [|split; [|split]]].
    + destruct (fires_first _ _ _ _); [discriminate|].
      destruct (transport env u _) as [[? [?|?]]|]; discriminate.
    + apply Hmono; cbn [timers next_id]; [reflexivity | lia].
    + reflexivity.
    + lia.
    + destruct Htr as [-> | [h ->]]; rewrite <- ?app_assoc; eauto.
  - destruct (validateUrl_world env _ _ _ _ Hval) as (Ht & Hn & Htr & _).
    rewrite (serverFetch_rejected env src options w w1 e Hval).
    cbn [fst snd]. split; [discriminate|]. split; [apply Hmono; [exact Ht | lia]|].
    split; [exact Ht|]. split; [lia|].
    destruct Htr as [-> | [h ->]]; [exists []; rewrite app_nil_r|]; eauto.
  - destruct (validateUrl_world env _ _ _ _ Hval) as (_ & _ & _ & Hp). congruence.
Qed.

End Accepted.

(** ** When the hostname check gives a verdict *)

Section Verdict.

Import Str.

(** The normal form is a plain address text: the constructor of its kind
    accepts it, with the full mask. *)
Lemma normalizeIP_output (ip n : string) :
  normalizeIP ip = Ok n ->
  if includes ":" n
  then exists a6, Address6.new n = Ok a6 /\ Address6.subnetMask a6 = 128
  else exists a4, Address4.new n = Ok a4 /\ Address4.subnetMask a4 = 32.
Proof.
  intros Hn. destruct (includes ":" ip) eqn:Hcolon.
  - destruct (Address6.new ip) as [a|e] eqn:Hnew.
    + destruct (Address6.v4 a) eqn:Hv4.
      * rewrite (normalizeIP_folded ip a Hcolon Hnew Hv4) in Hn. injection Hn as <-.
        rewrite (new4_no_colon _ _ (new4_dotted _)). eexists. split; [apply new4_dotted|].
        reflexivity.
      * rewrite (normalizeIP_v6 ip a Hnew Hv4) in Hn. injection Hn as <-.
        pose proof (new6_wf _ _ Hnew) as Hwf.
        rewrite (correctForm6_colon a Hwf). eexists. split; [apply renew6, Hwf|].
        reflexivity.
    + unfold normalizeIP in Hn. rewrite Hcolon, Hnew in Hn. discriminate.
  - destruct (Address4.new ip) as [a|e] eqn:Hnew.
    + rewrite (normalizeIP_v4 ip a Hnew) in Hn. injection Hn as <-.
      rewrite (correctForm4_no_colon ip a Hnew).
      destruct (renew4 _ _ Hnew) as (a' & Hre & Hmask & _). eauto.
    + unfold normalizeIP in Hn. rewrite Hcolon, Hnew in Hn. discriminate.
Qed.

Variable env : Env.

(** X7. Once the lookup has answered and the answer has been normalised,
    the hostname check gives a verdict exactly when the family of the
    answer agrees with the kind of the normalised text (family 4 and no
    colon, or another family and a colon); when they disagree it throws the
    invalid-hostname error. *)
Theorem verdict_iff_family_matches (host : string) (ip : LookupAddress)
    (n : string) (w : World) :
  dns_lookup env host = Ok ip ->
  normalizeIP (address ip) = Ok n ->
  if Bool.eqb (family ip =? 4) (negb (includes ":" n))
  then exists b, isPrivateHostname env host w = (Returned b, emit (EvLookup host) w)
  else isPrivateHostname env host w
       = (Thrown (InvalidHostname host), emit (EvLookup host) w).
Proof.
  intros Hdns Hn. rewrite isPrivateHostname_run, Hdns.
  pose proof (normalizeIP_output _ _ Hn) as Hout.
  unfold classify. rewrite Hn. cbn [mbind result_bind].
  destruct (family ip =? 4), (includes ":" n) eqn:Hc; cbn [Bool.eqb negb].
  - destruct (Address4.new n) as [a4|e] eqn:H4; [|reflexivity].
    rewrite (new4_no_colon _ _ H4) in Hc. discriminate.
  - destruct Hout as (a4 & -> & Hmask). cbn [mbind result_bind].
    destruct (String.eqb n AWS_IMDS_ENDPOINT); [eauto|].
    rewrite (some_ranges4 a4 Hmask). eauto.
  - destruct Hout as (a6 & -> & Hmask). cbn [mbind result_bind].
    rewrite (some_ranges6 a6 Hmask). eauto.
  - destruct (Address6.new n) as [a6|e] eqn:H6; [|reflexivity].
    rewrite (new6_colon _ _ H6) in Hc. discriminate.
Qed.

End Verdict.

(** ** What acceptance guarantees *)

Section AcceptedAddress.

Import Str.

(** A verdict of the classification is the range test of the normal form,
    read by the constructor of the answer's family. *)
Lemma classify_verdict (ip : LookupAddress) (b : bool) :
  classify ip = Ok b ->
  exists n,
    normalizeIP (address ip) = Ok n
    /\ if family ip =? 4
       then exists a4, Address4.new n = Ok a4
                       /\ b = isPrivate (V4 (Address4.bigInteger a4))
       else exists a6, Address6.new n = Ok a6
                       /\ b = isPrivate (V6 (Address6.bigInteger a6)).
Proof.
  unfold classify.
  destruct (normalizeIP (address ip)) as [n|e] eqn:Hn; [|discriminate].
  cbn [mbind result_bind]. pose proof (normalizeIP_output _ _ Hn) as Hout.
  intros Hc. exists n. split; [reflexivity|]. revert Hc.
  destruct (family ip =? 4).
  - destruct (Address4.new n) as [a4|e] eqn:H4; [|discriminate].
    cbn [mbind result_bind].
    rewrite (new4_no_colon _ _ H4) in Hout. cbv iota in Hout.
    destruct Hout as (a4' & Ha & Hmask). injection Ha as <-.
    intros Hc. exists a4. split; [reflexivity|]. revert Hc.
    unfold isPrivate. cbn [ranges_of_family same_address metadata_address ipv4].
    destruct (String.eqb_spec n AWS_IMDS_ENDPOINT) as [E|_].
    + intros [= <-]. subst n. vm_compute in H4. injection H4 as <-. reflexivity.
    + rewrite (some_ranges4 a4 Hmask). intros Hc.
      assert (Hb : b = existsb (isInRange (V4 (Address4.bigInteger a4)))
                         declared_ipv4_ranges) by congruence.
      rewrite Hb.
      destruct (Address4.bigInteger a4 =? _) eqn:Hm; [|symmetry; apply orb_false_r].
      rewrite (metadata_in_range _ Hm). reflexivity.
  - destruct (Address6.new n) as [a6|e] eqn:H6; [|discriminate].
    cbn [mbind result_bind].
    rewrite (new6_colon _ _ H6) in Hout. cbv iota in Hout.
    destruct Hout as (a6' & Ha & Hmask). injection Ha as <-.
    intros Hc. exists a6. split; [reflexivity|]. revert Hc.
    rewrite (some_ranges6 a6 Hmask). intros Hc.
    assert (Hb : b = existsb (isInRange (V6 (Address6.bigInteger a6)))
                       declared_ipv6_ranges) by congruence.
    rewrite Hb. unfold isPrivate.
    cbn [ranges_of_family same_address metadata_address ipv4].
    symmetry. apply orb_false_r.
Qed.

Variable env : Env.

(** X1. What acceptance guarantees: the URL that validation returns is
    the parsed one, its scheme is http or https, its effective port is 80 or
    443, the public-suffix oracle accepted its hostname, and the hostname
    was looked up once. Of the answer it guarantees this much: its normal
    form is read by the constructor of the answer's family and lies in no
    declared range of that family. For an IPv4 answer, and for an IPv6
    answer that is not IPv4-mapped, that is "not private" in the
    specification's sense, folding included. For an IPv4-mapped answer in
    hexadecimal groups it is the test against the IPv6 ranges only: nothing
    is said of the IPv4 address it embeds. *)
Theorem accepted_url_checked (urlString : string) (w w1 : World) (u : URL) :
  validateUrl env urlString w = (Returned u, w1) ->
  url_parse env urlString = Some u
  /\ (drop_last (protocol u) = "http" \/ drop_last (protocol u) = "https")
  /\ (effective_port u = Some 80 \/ effective_port u = Some 443)
  /\ psl_isValid env (hostname u) = true
  /\ w1 = emit (EvLookup (hostname u)) w
  /\ exists ip n,
       dns_lookup env (hostname u) = Ok ip
       /\ normalizeIP (address ip) = Ok n
       /\ (if family ip =? 4
           then exists a4, Address4.new n = Ok a4
                           /\ isPrivate_folded (V4 (Address4.bigInteger a4)) = false
           else exists a6, Address6.new n = Ok a6
                           /\ isPrivate (V6 (Address6.bigInteger a6)) = false
                           /\ (embedded_ipv4 (V6 (Address6.bigInteger a6)) = None ->
                               isPrivate_folded (V6 (Address6.bigInteger a6)) = false))
       /\ (forall a, resolved_address ip = Some a -> isPrivate a = false).
Proof.
  rewrite validateUrl_run.
  destruct (url_parse env urlString) as [url|]; [|discriminate].
  destruct (scheme_allowed url) eqn:Hscheme; cbn [negb]; [|discriminate].
  destruct (port_allowed (effective_port url)) eqn:Hport; cbn [negb]; [|discriminate].
  destruct (psl_isValid env (hostname url)) eqn:Hpsl; cbn [negb]; [|discriminate].
  destruct (dns_lookup env (hostname url)) as [ip|e] eqn:Hdns; [|discriminate].
  destruct (classify ip) as [[|]|e] eqn:Hc; try discriminate.
  intros [= <- <-]. split; [reflexivity|]. split; [|split; [|split; [|split]]].
  - unfold scheme_allowed, ALLOWED_SCHEMES in Hscheme.
    apply bool_decide_eq_true in Hscheme.
    apply elem_of_union in Hscheme as [H%elem_of_singleton | H%elem_of_singleton];
      auto.
  - unfold port_allowed, ALLOWED_PORTS in Hport.
    destruct (effective_port url) as [p|]; [|discriminate].
    apply bool_decide_eq_true in Hport.
    apply elem_of_union in Hport as [->%elem_of_singleton | ->%elem_of_singleton];
      auto.
  - exact Hpsl.
  - reflexivity.
  - destruct (classify_verdict ip false Hc) as (n & Hn & Hfam).
    exists ip, n. split; [exact Hdns|]. split; [exact Hn|]. split.
    + destruct (family ip =? 4).
      * destruct Hfam as (a4 & H4 & Hp). exists a4. split; [exact H4|].
        symmetry. exact Hp.
      * destruct Hfam as (a6 & H6 & Hp). exists a6. split; [exact H6|].
        split; [symmetry; exact Hp|].
        intros Hnone. unfold isPrivate_folded, fold_mapped. rewrite Hnone.
        symmetry. exact Hp.
    + intros a Ha. rewrite (classify_resolved ip a Ha) in Hc. congruence.
Qed.

End AcceptedAddress.

(** X7 at an IPv4 answer, which gets a verdict. *)
Lemma verdict_iff_family_matches_witness :
  exists b, isPrivateHostname demo_env "example.com" initial
            = (Returned b, emit (EvLookup "example.com") initial).
Proof.
  exact (verdict_iff_family_matches demo_env "example.com"
           (mkLookupAddress "93.184.216.34" 4) "93.184.216.34" initial
           ltac:(vm_compute; reflexivity) ltac:(vm_compute; reflexivity)).
Defined.

(** ** The further properties on the small world *)

(** X1 at [https://example.com/], which resolves to 93.184.216.34. *)
Lemma accepted_url_checked_witness :
  url_parse demo_env "https://example.com/" = Some (demo_url "https:" "example.com" "")
  /\ effective_port (demo_url "https:" "example.com" "") = Some 443
  /\ exists ip n,
       dns_lookup demo_env "example.com" = Ok ip
       /\ normalizeIP (address ip) = Ok n
       /\ (if family ip =? 4
           then exists a4, Address4.new n = Ok a4
                           /\ isPrivate_folded (V4 (Address4.bigInteger a4)) = false
           else exists a6, Address6.new n = Ok a6
                           /\ isPrivate (V6 (Address6.bigInteger a6)) = false
                           /\ (embedded_ipv4 (V6 (Address6.bigInteger a6)) = None ->
                               isPrivate_folded (V6 (Address6.bigInteger a6)) = false))
       /\ (forall a, resolved_address ip = Some a -> isPrivate a = false).
Proof.
  destruct (accepted_url_checked demo_env "https://example.com/" initial
              (emit (EvLookup "example.com") initial)
              (demo_url "https:" "example.com" "")
              ltac:(vm_compute; reflexivity))
    as (Hurl & _ & _ & _ & _ & Hip).
  split; [exact Hurl|]. split; [reflexivity | exact Hip].
Defined.

(** X2 at [https://example.com/], which resolves to 93.184.216.34. *)
Lemma public_host_is_fetched_witness :
  isPrivate (ipv4 93 184 216 34) = false
  /\ serverFetch demo_env (inl "https://example.com/") ∅ initial
     = (Returned (mkResponse 200 "ok"),
        {| trace := [EvLookup "example.com"; EvNewAbortController 0;
                     EvSetTimeout 1 (CbAbort 0) (VNum 10000);
                     EvFetch (demo_url "https:" "example.com" "")
                       (<["signal" := VSignal 0]> ∅);
                     EvClearTimeout 1];
           timers := []; next_id := 2 |}).
Proof.
  split; [vm_compute; reflexivity|].
  exact (proj2 (public_host_is_fetched demo_env (inl "https://example.com/")
                  (demo_url "https:" "example.com" "")
                  (mkLookupAddress "93.184.216.34" 4) (ipv4 93 184 216 34) ∅ initial
                  ltac:(constructor) ltac:(vm_compute; reflexivity)
                  ltac:(vm_compute; reflexivity) ltac:(vm_compute; reflexivity)
                  ltac:(vm_compute; reflexivity) ltac:(vm_compute; reflexivity)
                  ltac:(vm_compute; reflexivity) ltac:(vm_compute; reflexivity))).
Defined.

(** X4 from the initial world, on a rejected and on an accepted URL. *)
Lemma serverFetch_keeps_world_witness :
  timers (snd (serverFetch demo_env (inl "https://intranet.example.com/") ∅ initial)) = []
  /\ timers (snd (serverFetch demo_env (inl "https://example.com/") ∅ initial)) = []
  /\ wf_world (snd (serverFetch demo_env (inl "https://example.com/") ∅ initial)).
Proof.
  destruct (serverFetch_keeps_world demo_env (inl "https://intranet.example.com/") ∅
              initial ltac:(constructor)) as (_ & _ & H1 & _).
  destruct (serverFetch_keeps_world demo_env (inl "https://example.com/") ∅
              initial ltac:(constructor)) as (_ & H2 & H3 & _).
  split; [exact H1|]. split; [exact H3 | exact H2].
Defined.


(** X6 at a documentation address that ends in 8.8.8.8. *)
Lemma dotted_tail_folded_witness :
  normalizeIP "2001:db8::8.8.8.8" = Ok "8.8.8.8"
  /\ isPrivateHostname
       (with_answer demo_env "example.com" (Ok (mkLookupAddress "2001:db8::8.8.8.8" 6)))
       "example.com" initial
     = (Thrown (InvalidHostname "example.com"), emit (EvLookup "example.com") initial).
Proof.
  destruct (dotted_tail_folded "2001:db8::8.8.8.8"
              (Address6.mk "2001:db8::8.8.8.8" [8193; 3512; 0; 0; 0; 0; 2056; 2056] 128
                 true EmptyString)
              ltac:(vm_compute; reflexivity) ltac:(reflexivity)) as [Hn Hc].
  split.
  - rewrite Hn. vm_compute. reflexivity.
  - apply (Hc _ "example.com" 6 initial); vm_compute; reflexivity.
Defined.
